(** * Goodwe update coordinator: a shallow embedding of
      [custom_components/goodwe/coordinator.py]

    The two classes of the source, [GoodweUpdateCoordinator] and
    [GoodweUpdateCoordinatorWithWakeUp], are embedded as computations in a
    state-and-exception monad over a [world]: the Python object store (the
    dict objects the coordinator points to), the attributes of the
    coordinator, the part of the host it talks to (one-time listener, timer
    table) and the trace of calls that leave the coordinator (entity updates,
    telemetry reads, wake-up requests, log records).

    What lies outside the source file is an input of the model, never a
    definition of it: the outcome of [entity.async_update()], of
    [inverter.read_runtime_data()] and of [command.execute(...)] is supplied by
    the caller of each embedded method. An [await] is one atomic step: no other
    task touches the coordinator while a call is suspended. *)

From Stdlib Require Import ZArith List.
From Stdlib.Strings Require Import String Byte.
From stdpp Require Import base strings gmap list functions.

Open Scope Z_scope.

(** ** Python values held by a telemetry snapshot *)

(** Sensor values are [Any] in the source: numbers, strings, [None]. A finite
    float is a mantissa and a binary exponent. *)
Inductive value :=
| VNone
| VBool (b : bool)
| VInt (z : Z)
| VFloat (m e : Z)
| VStr (s : string).

(** [bool(v)]: the truth value Python gives to [v] in [if v] and [v if v else w]. *)
Definition truthy (v : value) : bool :=
  match v with
  | VNone => false
  | VBool b => b
  | VInt z => negb (z =? 0)
  | VFloat m _ => negb (m =? 0)
  | VStr s => negb (String.eqb s "")
  end.

(** [v is not None] *)
Definition is_not_None (v : value) : bool :=
  match v with
  | VNone => false
  | _ => true
  end.

(** [dict[str, Any]] *)
Abbreviation dict := (gmap string value).

(** [d.get(k)]: the value under [k], [None] when the key is missing. *)
Definition dict_get (d : dict) (k : string) : value := default VNone (d !! k).

(** [bool(d)]: a dict is true when it is not empty. *)
Definition dict_truthy (d : dict) : bool := bool_decide (d ≠ ∅).

(** ** Exceptions *)

(** [RequestFailedException] is a subclass of [InverterError]; every other
    subclass of [InverterError] is [InverterError kind]. [UpdateFailed(ex)]
    carries the error it was raised from. *)
Inductive exn :=
| RequestFailedException (consecutive_failures_count : Z)
| InverterError (kind : string)
| UpdateFailed (cause : exn)
| CancelledError
| AttributeError
| TypeError
| OtherException (kind : string).

(** [isinstance(ex, InverterError)] *)
Definition isinstance_InverterError (ex : exn) : bool :=
  match ex with
  | RequestFailedException _ | InverterError _ => true
  | _ => false
  end.

Inductive result (A : Type) :=
| Ok (a : A)
| Raise (ex : exn).
Arguments Ok {A} a.
Arguments Raise {A} ex.

(** ** Entities, the registry of polled entities *)

(** A [BaseCoordinatorEntity]: hashed and compared by object identity, with a
    display [name]. *)
Record entity := Entity { entity_id : nat; name : string }.

#[global] Instance entity_eq_dec : EqDecision entity.
Proof. solve_decision. Defined.

(** The [interval] argument: an [int], or [None] when absent. *)
Abbreviation interval := (option Z).

(** [bool(interval)] *)
Definition interval_truthy (i : interval) : bool :=
  match i with
  | Some z => negb (z =? 0)
  | None => false
  end.

(** A Python dict keyed by entity keeps insertion order and one entry per key:
    an association list, oldest entry first. *)
Abbreviation registry := (list (entity * interval)).

(** [d[k] = v]: overwrite in place, or append a new key. *)
Fixpoint registry_setitem (k : entity) (v : interval) (d : registry) : registry :=
  match d with
  | [] => [(k, v)]
  | (k', v') :: d' =>
      if decide (k = k') then (k, v) :: d' else (k', v') :: registry_setitem k v d'
  end.

(** [d.pop(k, None)]: drop the key if it is there. *)
Fixpoint registry_pop (k : entity) (d : registry) : registry :=
  match d with
  | [] => []
  | (k', v') :: d' =>
      if decide (k = k') then d' else (k', v') :: registry_pop k d'
  end.

(** [d.get(k)] on the registry. *)
Fixpoint registry_get (k : entity) (d : registry) : option interval :=
  match d with
  | [] => None
  | (k', v') :: d' => if decide (k = k') then Some v' else registry_get k d'
  end.

(** ** The device client and the host, as seen from the coordinator *)

(** [ProtocolCommand(request, validator)] *)
Record ProtocolCommand := {
  request : list byte;
  validator : list byte -> bool
}.

(** [UdpInverterProtocol(host=, port=, comm_addr=, timeout=)] *)
Record UdpInverterProtocol := {
  host : string;
  port : Z;
  comm_addr : Z;
  timeout : Z
}.

(** [timedelta(minutes=m)], in seconds. *)
Definition timedelta_minutes (m : Z) : Z := 60 * m.

Abbreviation loc := nat.
Abbreviation handle := nat.

(** The only callback the source hands to [async_track_time_interval] is the
    local coroutine function [send_wakeup_packet]. *)
Inductive action := send_wakeup_packet.

Record timer := {
  timer_interval : Z;
  timer_name : string;
  timer_action : action
}.

(** An argument of a log record. *)
Inductive log_arg :=
| ArgInt (z : Z)
| ArgStr (s : string)
| ArgBytes (b : list byte).

(** Calls that leave the coordinator, in the order they are made. *)
Inductive event :=
| EvAsyncUpdate (e : entity)
| EvReadRuntimeData
| EvExecute (req : list byte) (protocol : UdpInverterProtocol)
| EvTrackTimeInterval (h : handle) (tm : timer)
| EvCancel (h : handle)
| EvDebug (fmt : string) (args : list log_arg).

(** ** The state *)

Record world := World {
  (* object store: the dict objects, and the next free reference *)
  heap : loc -> dict;
  next_loc : loc;
  (* GoodweUpdateCoordinator *)
  data : option loc;
  _last_data : loc;
  _polled_entities : registry;
  (* GoodweUpdateCoordinatorWithWakeUp *)
  _host : string;
  _cancel_wakeup_interval : option handle;
  (* host: the one-time EVENT_HOMEASSISTANT_STARTED listener, the timers *)
  started_listener : bool;
  timers : gmap handle timer;
  next_handle : handle;
  (* everything that left the coordinator *)
  trace : list event
}.

(** Field updates. *)
Definition set_heap (f : (loc -> dict) -> loc -> dict) (w : world) : world :=
  World (f (heap w)) (next_loc w) (data w) (_last_data w) (_polled_entities w)
        (_host w) (_cancel_wakeup_interval w) (started_listener w) (timers w)
        (next_handle w) (trace w).
Definition set_next_loc (n : loc) (w : world) : world :=
  World (heap w) n (data w) (_last_data w) (_polled_entities w)
        (_host w) (_cancel_wakeup_interval w) (started_listener w) (timers w)
        (next_handle w) (trace w).
Definition set_data (d : option loc) (w : world) : world :=
  World (heap w) (next_loc w) d (_last_data w) (_polled_entities w)
        (_host w) (_cancel_wakeup_interval w) (started_listener w) (timers w)
        (next_handle w) (trace w).
Definition set_last_data (l : loc) (w : world) : world :=
  World (heap w) (next_loc w) (data w) l (_polled_entities w)
        (_host w) (_cancel_wakeup_interval w) (started_listener w) (timers w)
        (next_handle w) (trace w).
Definition set_polled_entities (r : registry) (w : world) : world :=
  World (heap w) (next_loc w) (data w) (_last_data w) r
        (_host w) (_cancel_wakeup_interval w) (started_listener w) (timers w)
        (next_handle w) (trace w).
Definition set_host (s : string) (w : world) : world :=
  World (heap w) (next_loc w) (data w) (_last_data w) (_polled_entities w)
        s (_cancel_wakeup_interval w) (started_listener w) (timers w)
        (next_handle w) (trace w).
Definition set_cancel_wakeup_interval (c : option handle) (w : world) : world :=
  World (heap w) (next_loc w) (data w) (_last_data w) (_polled_entities w)
        (_host w) c (started_listener w) (timers w)
        (next_handle w) (trace w).
Definition set_started_listener (b : bool) (w : world) : world :=
  World (heap w) (next_loc w) (data w) (_last_data w) (_polled_entities w)
        (_host w) (_cancel_wakeup_interval w) b (timers w)
        (next_handle w) (trace w).
Definition set_timers (t : gmap handle timer) (n : handle) (w : world) : world :=
  World (heap w) (next_loc w) (data w) (_last_data w) (_polled_entities w)
        (_host w) (_cancel_wakeup_interval w) (started_listener w) t
        n (trace w).
Definition emit (ev : event) (w : world) : world :=
  World (heap w) (next_loc w) (data w) (_last_data w) (_polled_entities w)
        (_host w) (_cancel_wakeup_interval w) (started_listener w) (timers w)
        (next_handle w) (trace w ++ [ev]).

(** ** The monad of the methods: state, and Python exceptions *)

Definition M (A : Type) : Type := world -> result A * world.

Definition ret {A} (a : A) : M A := fun w => (Ok a, w).

Definition bind {A B} (m : M A) (k : A -> M B) : M B := fun w =>
  match m w with
  | (Ok a, w') => k a w'
  | (Raise ex, w') => (Raise ex, w')
  end.

Definition raise {A} (ex : exn) : M A := fun w => (Raise ex, w).

(** [try: body / except ...]: [handler ex] is the first [except] clause that
    matches [ex], [None] when no clause does and [ex] goes on to the caller. *)
Definition try_except {A} (body : M A) (handler : exn -> option (M A)) : M A := fun w =>
  match body w with
  | (Ok a, w') => (Ok a, w')
  | (Raise ex, w') =>
      match handler ex with
      | Some h => h w'
      | None => (Raise ex, w')
      end
  end.

Definition gets {A} (f : world -> A) : M A := fun w => (Ok (f w), w).
Definition modify (f : world -> world) : M unit := fun w => (Ok tt, f w).

Declare Scope py_scope.
Delimit Scope py_scope with py.
Notation "x <- m ;; k" := (bind m (fun x => k))
  (at level 100, m at next level, right associativity) : py_scope.
Notation "m ;; k" := (bind m (fun _ => k))
  (at level 100, right associativity) : py_scope.
Open Scope py_scope.

(** [_LOGGER.debug(fmt, *args)] *)
Definition debug (fmt : string) (args : list log_arg) : M unit :=
  modify (emit (EvDebug fmt args)).

(** A new dict object holding [d]; the reference to it. *)
Definition alloc (d : dict) : M loc := fun w =>
  (Ok (next_loc w), set_next_loc (S (next_loc w)) (set_heap (fun h => <[next_loc w := d]> h) w)).

(** [obj[k] = v] on the dict object at [l]. *)
Definition setitem (l : loc) (k : string) (v : value) : M unit :=
  modify (set_heap (fun h => <[l := <[k := v]> (h l)]> h)).

(** The store before any object exists. *)
Definition empty_world : world :=
  World (fun _ => ∅) 0%nat None 0%nat [] "" None false ∅ 0%nat [].

(** What one refresh cycle meets outside the coordinator: the outcome of
    [entity.async_update()] for each entity, and of
    [inverter.read_runtime_data()]. *)
Record cycle := {
  async_update : entity -> result unit;
  read_runtime_data : result dict
}.

(** ** class GoodweUpdateCoordinator *)

(** [__init__]: the base class leaves [self.data] at [None]. *)
Definition __init__ : M unit :=
  modify (set_data None) ;;
  l <- alloc ∅ ;;
  modify (set_last_data l) ;;
  modify (set_polled_entities []).

(** [await entity.async_update()] *)
Definition await_async_update (env : cycle) (e : entity) : M unit := fun w =>
  (async_update env e, emit (EvAsyncUpdate e) w).

(** The loop over [list(self._polled_entities.items())]. *)
Fixpoint for_polled_entities (env : cycle) (items : registry) : M unit :=
  match items with
  | [] => ret tt
  | (entity, interval) :: items' =>
      (if interval_truthy interval then
         try_except (await_async_update env entity)
           (fun ex =>
              if isinstance_InverterError ex
              then Some (debug "Failed to update entity %s" [ArgStr (name entity)])
              else None)
       else ret tt) ;;
      for_polled_entities env items'
  end.

Definition _update_polled_entities (env : cycle) : M unit :=
  items <- gets _polled_entities ;;
  for_polled_entities env items.

(** [self._last_data = self.data if self.data else {}] *)
Definition rotate_last_data : M unit :=
  d <- gets data ;;
  h <- gets heap ;;
  l <- match d with
       | Some r => if dict_truthy (h r) then ret r else alloc ∅
       | None => alloc ∅
       end ;;
  modify (set_last_data l).

(** [await self.inverter.read_runtime_data()]: the mapping the device client
    returns is a dict object of its own. *)
Definition await_read_runtime_data (env : cycle) : M loc :=
  modify (emit EvReadRuntimeData) ;;
  match read_runtime_data env with
  | Ok d => alloc d
  | Raise ex => raise ex
  end.

Definition _async_update_data (env : cycle) : M loc :=
  _update_polled_entities env ;;
  try_except
    (rotate_last_data ;;
     await_read_runtime_data env)
    (fun ex =>
       match ex with
       | RequestFailedException consecutive_failures_count =>
           Some (if consecutive_failures_count <? 3 then
                   debug "No response received (streak of %d)"
                         [ArgInt consecutive_failures_count] ;;
                   gets _last_data
                 else
                   debug "Inverter not responding (streak of %d)"
                         [ArgInt consecutive_failures_count] ;;
                   raise (UpdateFailed ex))
       | InverterError _ => Some (raise (UpdateFailed ex))
       | _ => None
       end).

(** One refresh cycle as the host's [DataUpdateCoordinator] runs it:
    [self.data = await self._async_update_data()]; when the call raises,
    [self.data] keeps its value and the host sees the exception. *)
Definition refresh (env : cycle) : M loc :=
  r <- _async_update_data env ;;
  modify (set_data (Some r)) ;;
  ret r.

(** [self.data.get(sensor)]; [None] has no attribute [get]. *)
Definition data_get (sensor : string) : M value :=
  d <- gets data ;;
  match d with
  | Some r => h <- gets heap ;; ret (dict_get (h r) sensor)
  | None => raise AttributeError
  end.

(** [self._last_data.get(sensor)] *)
Definition last_data_get (sensor : string) : M value :=
  l <- gets _last_data ;;
  h <- gets heap ;;
  ret (dict_get (h l) sensor).

Definition sensor_value (sensor : string) : M value :=
  val <- data_get sensor ;;
  if is_not_None val then ret val else last_data_get sensor.

Definition total_sensor_value (sensor : string) : M value :=
  val <- data_get sensor ;;
  if truthy val then ret val else last_data_get sensor.

(** [self._last_data[sensor] = 0] then [self.data[sensor] = 0]; [None] does
    not support item assignment. *)
Definition reset_sensor (sensor : string) : M unit :=
  l <- gets _last_data ;;
  setitem l sensor (VInt 0) ;;
  d <- gets data ;;
  match d with
  | Some r => setitem r sensor (VInt 0)
  | None => raise TypeError
  end.

Definition entity_state_polling (entity : entity) (interval : interval) : M unit :=
  if interval_truthy interval then
    modify (fun w => set_polled_entities (registry_setitem entity interval (_polled_entities w)) w)
  else
    modify (fun w => set_polled_entities (registry_pop entity (_polled_entities w)) w).

(** ** class GoodweUpdateCoordinatorWithWakeUp *)

(** [str.encode("utf-8")]: a [string] here is already the UTF-8 byte string. *)
Definition encode_utf8 (s : string) : list byte := list_byte_of_string s.

(** [hass.bus.async_listen_once(EVENT_HOMEASSISTANT_STARTED, listener)] *)
Definition async_listen_once : M unit := modify (set_started_listener true).

(** [async_track_time_interval(hass, action, interval, name)]: the host
    enters the timer in its table; the returned callable, which removes it
    again, is the [handle]. *)
Definition async_track_time_interval (act : action) (seconds : Z) (nm : string) : M handle :=
  fun w =>
    let h := next_handle w in
    let tm := {| timer_interval := seconds; timer_name := nm; timer_action := act |} in
    (Ok h, emit (EvTrackTimeInterval h tm) (set_timers (<[h := tm]> (timers w)) (S h) w)).

(** Calling the callable that [async_track_time_interval] returned. *)
Definition call_cancel (h : handle) : M unit :=
  modify (fun w => emit (EvCancel h) (set_timers (delete h (timers w)) (next_handle w) w)).

(** [await command.execute(protocol)]: the response data of the result,
    [None] for no result, or an exception. *)
Definition await_execute (outcome : result (option (list byte)))
    (command : ProtocolCommand) (protocol : UdpInverterProtocol) : M (option (list byte)) :=
  fun w => (outcome, emit (EvExecute (request command) protocol) w).

Definition WakeUp__init__ (host : string) : M unit :=
  __init__ ;;
  modify (set_host host) ;;
  async_listen_once.

Definition _send_wakeup_packet (outcome : result (option (list byte))) : M unit :=
  debug "Sending wakeup packet to inverter on port 48899" [] ;;
  let command := {| request := encode_utf8 "WIFIKIT-214028-READ";
                    validator := fun r => true |} in
  try_except
    (h <- gets _host ;;
     result <- await_execute outcome command
                 {| host := h; port := 48899; comm_addr := 1; timeout := 1 |} ;;
     match result with
     | Some raw_data =>
         debug "Received response from wakeup packet: {repr(raw_data)}" [ArgBytes raw_data]
     | None =>
         debug "No response received from wakeup packet" []
     end)
    (fun ex =>
       match ex with
       | CancelledError => Some (debug "No valid response received to wakeup packet" [])
       | _ => None
       end).

(** Calling a coroutine function builds a coroutine object and runs none of
    its body; the body runs when the object is awaited or scheduled. An
    object that is only dropped does nothing. *)
Definition never_awaited {A} (coroutine : A) : M unit := ret tt.

Definition _start_wakeup_interval : M unit :=
  h <- async_track_time_interval send_wakeup_packet (timedelta_minutes 10)
         "goodwe_inverter_send_wakeup_packet" ;;
  modify (set_cancel_wakeup_interval (Some h)) ;;
  (* send a wakeup packet on start as well just to be safe *)
  never_awaited _send_wakeup_packet.

(** The coroutine of the base class's [async_shutdown], which the method
    returns to its caller. *)
Inductive coroutine := super_async_shutdown.

Definition async_shutdown : M coroutine :=
  c <- gets _cancel_wakeup_interval ;;
  match c with
  | Some h =>
      call_cancel h ;;
      modify (set_cancel_wakeup_interval None)
  | None => ret tt
  end ;;
  ret super_async_shutdown.

(** ** The host driving a coordinator *)

(** The listener entered in [__init__]: [lambda _: self._start_wakeup_interval()],
    called once. *)
Definition fire_started : M unit :=
  l <- gets started_listener ;;
  if l then modify (set_started_listener false) ;; _start_wakeup_interval
  else ret tt.

(** The timer [h] comes due: [await self._send_wakeup_packet()] if the timer
    is still in the table. *)
Definition fire_timer (h : handle) (outcome : result (option (list byte))) : M unit :=
  t <- gets timers ;;
  match t !! h with
  | Some tm =>
      match timer_action tm with
      | send_wakeup_packet => _send_wakeup_packet outcome
      end
  | None => ret tt
  end.

(** What reaches a coordinator from outside: the host's signals and the
    calls of the entities that read from it. *)
Inductive call :=
| HomeassistantStarted
| TimerDue (h : handle) (outcome : result (option (list byte)))
| Refresh (env : cycle)
| Shutdown
| ResetSensor (sensor : string)
| EntityStatePolling (entity : entity) (interval : interval).

(** What a call raises stays with its caller: only the state goes on. *)
Definition step (c : call) (w : world) : world :=
  match c with
  | HomeassistantStarted => snd (fire_started w)
  | TimerDue h outcome => snd (fire_timer h outcome w)
  | Refresh env => snd (refresh env w)
  | Shutdown => snd (async_shutdown w)
  | ResetSensor sensor => snd (reset_sensor sensor w)
  | EntityStatePolling entity interval => snd (entity_state_polling entity interval w)
  end.

Definition run (calls : list call) (w : world) : world :=
  fold_left (fun w c => step c w) calls w.

(** ** The snapshots, and the lookup rules in the words of the specification *)

(** The [current] snapshot: the dict [self.data] points to, the empty mapping
    while [self.data] is unset. *)
Definition current_snapshot (w : world) : dict :=
  match data w with
  | Some r => heap w r
  | None => ∅
  end.

(** The [lastKnown] snapshot: the dict [self._last_data] points to. *)
Definition last_known_snapshot (w : world) : dict := heap w (_last_data w).

(** "returns [current[id]] if present and non-null, else [lastKnown[id]], else
    null" *)
Definition spec_sensorValue (current lastKnown : dict) (id : string) : value :=
  match current !! id with
  | Some (VNone) | None =>
      match lastKnown !! id with
      | Some v => v
      | None => VNone
      end
  | Some v => v
  end.

(** "same but additionally treats a falsy/zero current value as absent and
    falls back to [lastKnown]" *)
Definition spec_totalSensorValue (current lastKnown : dict) (id : string) : value :=
  match current !! id with
  | Some v =>
      if truthy v then v
      else match lastKnown !! id with
           | Some v' => v'
           | None => VNone
           end
  | None =>
      match lastKnown !! id with
      | Some v' => v'
      | None => VNone
      end
  end.

(** The trace grows at its end and nothing else changes. *)
Definition add_trace (t : list event) (w : world) : world :=
  World (heap w) (next_loc w) (data w) (_last_data w) (_polled_entities w)
        (_host w) (_cancel_wakeup_interval w) (started_listener w) (timers w)
        (next_handle w) (trace w ++ t).

(** The calls the secondary phase may make with the registry [items], and
    those of a whole refresh cycle. *)
Definition polled_event (items : registry) (ev : event) : Prop :=
  match ev with
  | EvAsyncUpdate e => e ∈ items.*1
  | EvDebug _ _ => True
  | _ => False
  end.

Definition cycle_event (items : registry) (ev : event) : Prop :=
  match ev with
  | EvReadRuntimeData => True
  | _ => polled_event items ev
  end.

(** Every reference the coordinator holds is to an object of the store. *)
Definition store_wf (w : world) : Prop :=
  (_last_data w < next_loc w)%nat
  /\ forall r, data w = Some r -> (r < next_loc w)%nat.

(** [w'] is [w] after more calls, each satisfying [P]. *)
Definition grows (P : event -> Prop) (w w' : world) : Prop :=
  exists t, trace w' = trace w ++ t /\ Forall P t.

(** A refresh whose telemetry read would return a mapping. *)
Definition successful_read (c : call) : bool :=
  match c with
  | Refresh env =>
      match read_runtime_data env with
      | Ok _ => true
      | Raise _ => false
      end
  | _ => false
  end.

(** A call that enters [e] in the registry of polled entities. *)
Definition registers (e : entity) (c : call) : bool :=
  match c with
  | EntityStatePolling e' i => bool_decide (e' = e) && interval_truthy i
  | _ => false
  end.

(** The timer that [_start_wakeup_interval] asks the host for. *)
Definition wakeup_timer : timer :=
  {| timer_interval := 600;
     timer_name := "goodwe_inverter_send_wakeup_packet";
     timer_action := send_wakeup_packet |}.

(** The request of a wake-up send, byte by byte. *)
Definition wakeup_request : list byte :=
  [x57; x49; x46; x49; x4b; x49; x54; x2d; x32; x31; x34; x30; x32; x38; x2d;
   x52; x45; x41; x44]%byte.

(** Any event but a wake-up request. *)
Definition no_execute (ev : event) : Prop :=
  match ev with
  | EvExecute _ _ => False
  | _ => True
  end.

(** What holds of the keep-alive fields in every state a coordinator reaches:
    while a handle is kept the listener has fired and the host's table holds
    that one timer; with no handle the table is empty. *)
Definition wakeup_inv (w : world) : Prop :=
  match _cancel_wakeup_interval w with
  | Some h => started_listener w = false /\ timers w = {[ h := wakeup_timer ]}
  | None => timers w = ∅
  end.

(** Shut down after arming: no handle, no listener, no timer. *)
Definition stopped (w : world) : Prop :=
  _cancel_wakeup_interval w = None /\ started_listener w = false /\ timers w = ∅.

(** Two polled entities. *)
Definition entity_a : entity := {| entity_id := 1; name := "Grid export limit" |}.
Definition entity_b : entity := {| entity_id := 2; name := "Inverter operation mode" |}.

(** The events of a wake-up send. *)
Definition wakeup_event (ev : event) : Prop :=
  match ev with
  | EvExecute _ _ | EvDebug _ _ => True
  | _ => False
  end.

(** A coordinator right after [GoodweUpdateCoordinatorWithWakeUp(host=...)]. *)
Definition fresh_coordinator (host : string) : world :=
  snd (WakeUp__init__ host empty_world).

(** A cycle in which every entity update succeeds and the device answers
    with [d], and one in which the read raises [ex]. *)
Definition cycle_reads (d : dict) : cycle :=
  {| async_update := fun _ => Ok tt; read_runtime_data := Ok d |}.
Definition cycle_read_raises (ex : exn) : cycle :=
  {| async_update := fun _ => Ok tt; read_runtime_data := Raise ex |}.

(** A cycle in which the update of [entity_a] fails with a request error, the
    other updates succeed and the device answers with [d]. *)
Definition cycle_entity_a_fails (d : dict) : cycle :=
  {| async_update := fun e =>
       if decide (e = entity_a) then Raise (RequestFailedException 1) else Ok tt;
     read_runtime_data := Ok d |}.

(** The entities whose [async_update] a trace calls, in order. *)
Fixpoint updates_of (t : list event) : list entity :=
  match t with
  | [] => []
  | EvAsyncUpdate e :: t' => e :: updates_of t'
  | _ :: t' => updates_of t'
  end.

(** Every interval the registry holds is truthy. *)
Definition registry_truthy (d : registry) : Prop :=
  Forall (fun p => interval_truthy p.2 = true) d.



(** Kinds of events, and how many of a kind a trace holds. *)
Definition is_track (ev : event) : bool :=
  match ev with EvTrackTimeInterval _ _ => true | _ => false end.
Definition is_cancel (ev : event) : bool :=
  match ev with EvCancel _ => true | _ => false end.
Definition is_execute (ev : event) : bool :=
  match ev with EvExecute _ _ => true | _ => false end.
Definition count (f : event -> bool) (t : list event) : nat :=
  length (List.filter f t).

(** The keep-alive events of a trace against the keep-alive fields: nothing
    while the listener waits; afterwards one registration, and one cancel once
    the handle is gone. *)
Definition keepalive_trace_inv (w : world) : Prop :=
  wakeup_inv w
  /\ if started_listener w then
       _cancel_wakeup_interval w = None
       /\ count is_track (trace w) = 0%nat
       /\ count is_cancel (trace w) = 0%nat
       /\ count is_execute (trace w) = 0%nat
     else
       count is_track (trace w) = 1%nat
       /\ count is_cancel (trace w)
          = match _cancel_wakeup_interval w with Some _ => 0%nat | None => 1%nat end.

(** ** Tactics *)

#[local] Arguments Z.ltb : simpl never.
#[local] Arguments Z.eqb : simpl never.

(** Unfold the monad down to functions on [world]. *)
Ltac run_py :=
  unfold bind, gets, modify, ret, raise, debug, setitem in *; simpl in *.

(** Unfold a refresh cycle down to its primitive steps. *)
Ltac exec_cycle :=
  unfold refresh, _async_update_data, try_except, rotate_last_data,
    await_read_runtime_data, alloc in *; run_py.

(** The branches of a cycle after the secondary phase: is there a non-empty
    current snapshot, what does the read return or raise, how long is the
    streak. *)
Ltac cycle_cases env w :=
  destruct (data w) as [?r|] eqn:?; simpl;
  [ destruct (dict_truthy (heap w _)) eqn:?; simpl | ];
  (destruct (read_runtime_data env) as [?d|[]] eqn:?; simpl;
   try (destruct (_ <? 3) eqn:?; simpl)).

(** The trace of a state reached by primitive steps, against the trace it
    started from. *)
Ltac solve_grows :=
  unfold grows; simpl; rewrite <- ?app_assoc;
  eexists; split; [first [reflexivity | symmetry; apply app_nil_r]|];
  rewrite ?Forall_app; repeat split; try done; repeat first [done | constructor].

(** * Proofs *)

Lemma add_trace_nil (w : world) : add_trace [] w = w.
Proof. destruct w. unfold add_trace. simpl. by rewrite app_nil_r. Qed.

Lemma add_trace_app (t1 t2 : list event) (w : world) :
  add_trace t2 (add_trace t1 w) = add_trace (t1 ++ t2) w.
Proof. unfold add_trace. simpl. by rewrite app_assoc. Qed.

Lemma emit_add_trace (ev : event) (w : world) : emit ev w = add_trace [ev] w.
Proof. reflexivity. Qed.

(** ** Lookups *)

Lemma dict_get_lookup (d : dict) (k : string) :
  dict_get d k = match d !! k with Some v => v | None => VNone end.
Proof. unfold dict_get. by destruct (d !! k). Qed.

Lemma data_get_set (w : world) (r : loc) (sensor : string) :
  data w = Some r -> data_get sensor w = (Ok (dict_get (heap w r) sensor), w).
Proof. intros H. unfold data_get. run_py. by rewrite H. Qed.

Lemma data_get_unset (w : world) (sensor : string) :
  data w = None -> data_get sensor w = (Raise AttributeError, w).
Proof. intros H. unfold data_get. run_py. by rewrite H. Qed.

Lemma sensor_value_set (w : world) (r : loc) (sensor : string) :
  data w = Some r ->
  sensor_value sensor w
  = (Ok (spec_sensorValue (heap w r) (last_known_snapshot w) sensor), w).
Proof.
  intros Hd. unfold sensor_value, bind. rewrite (data_get_set _ _ _ Hd).
  unfold spec_sensorValue, last_data_get, last_known_snapshot.
  rewrite !dict_get_lookup. run_py.
  destruct (heap w r !! sensor) as [[]|]; simpl; try reflexivity;
    by rewrite dict_get_lookup.
Qed.

Lemma total_sensor_value_set (w : world) (r : loc) (sensor : string) :
  data w = Some r ->
  total_sensor_value sensor w
  = (Ok (spec_totalSensorValue (heap w r) (last_known_snapshot w) sensor), w).
Proof.
  intros Hd. unfold total_sensor_value, bind. rewrite (data_get_set _ _ _ Hd).
  unfold spec_totalSensorValue, last_data_get, last_known_snapshot.
  rewrite !dict_get_lookup. run_py.
  destruct (heap w r !! sensor) as [v|]; simpl.
  - destruct (truthy v); [reflexivity|]. by rewrite dict_get_lookup.
  - by rewrite dict_get_lookup.
Qed.

(** C3 (as amended): whenever the current snapshot is set, [sensor_value]
    returns [current[id]] when it is present and not [None], otherwise
    [lastKnown[id]], otherwise [None], so it is never [None] when one of the
    snapshots holds a value other than [None] for the id; [total_sensor_value]
    follows the same rule with a falsy current value counted as absent. Both
    leave the state as it is. *)
Theorem sensor_value_follows_rule (w : world) (r : loc) (sensor : string) :
  data w = Some r ->
  sensor_value sensor w
    = (Ok (spec_sensorValue (heap w r) (last_known_snapshot w) sensor), w)
  /\ total_sensor_value sensor w
    = (Ok (spec_totalSensorValue (heap w r) (last_known_snapshot w) sensor), w)
  /\ ((exists v, heap w r !! sensor = Some v /\ v <> VNone)
      \/ (exists v, last_known_snapshot w !! sensor = Some v /\ v <> VNone) ->
      fst (sensor_value sensor w) <> Ok VNone).
Proof.
  intros Hd.
  split; [by apply sensor_value_set|]. split; [by apply total_sensor_value_set|].
  rewrite (sensor_value_set _ _ _ Hd). simpl. unfold spec_sensorValue.
  intros [(v & Hv & Hne)|(v & Hv & Hne)] Heq.
  - rewrite Hv in Heq. destruct v; congruence.
  - rewrite Hv in Heq.
    destruct (heap w r !! sensor) as [[]|]; congruence.
Qed.

Lemma sensor_value_follows_rule_witness :
  fst (sensor_value "ppv"
         (run [Refresh (cycle_reads {[ "ppv" := VInt 500; "e_total" := VInt 1234 ]});
                    Refresh (cycle_reads {[ "ppv" := VNone; "e_total" := VInt 0 ]})]
                   (fresh_coordinator "192.168.1.14"))) = Ok (VInt 500)
  /\ fst (sensor_value "e_total"
         (run [Refresh (cycle_reads {[ "ppv" := VInt 500; "e_total" := VInt 1234 ]});
                    Refresh (cycle_reads {[ "ppv" := VNone; "e_total" := VInt 0 ]})]
                   (fresh_coordinator "192.168.1.14"))) = Ok (VInt 0)
  /\ fst (total_sensor_value "e_total"
         (run [Refresh (cycle_reads {[ "ppv" := VInt 500; "e_total" := VInt 1234 ]});
                    Refresh (cycle_reads {[ "ppv" := VNone; "e_total" := VInt 0 ]})]
                   (fresh_coordinator "192.168.1.14"))) = Ok (VInt 1234).
Proof.
  set (w := run _ _).
  destruct (sensor_value_follows_rule w 3%nat "ppv" eq_refl) as (H1 & _ & _).
  destruct (sensor_value_follows_rule w 3%nat "e_total" eq_refl) as (H2 & H3 & _).
  rewrite H1, H2, H3. repeat split.
Defined.

(** C3 (as stated) fails before the first snapshot: with [self.data] unset the
    claim promises [lastKnown[id]] or [None], and the call raises. *)
Lemma sensor_value_unset_counterexample :
  fst (sensor_value "e_day" (fresh_coordinator "192.168.1.14")) = Raise AttributeError
  /\ fst (total_sensor_value "e_day" (fresh_coordinator "192.168.1.14")) = Raise AttributeError
  /\ spec_sensorValue (current_snapshot (fresh_coordinator "192.168.1.14"))
       (last_known_snapshot (fresh_coordinator "192.168.1.14")) "e_day" = VNone.
Proof. repeat split. Qed.

(** ** What a step leaves alone *)

Lemma polled_event_cons (p : entity * interval) (items : registry) (ev : event) :
  polled_event items ev -> polled_event (p :: items) ev.
Proof. destruct ev; simpl; try done. by right. Qed.

Lemma polled_cycle_event (items : registry) (ev : event) :
  polled_event items ev -> cycle_event items ev.
Proof. by destruct ev. Qed.

Section polled.
Context (env : cycle).

Lemma for_polled_entities_frame (items : registry) (w : world) :
  exists t, snd (for_polled_entities env items w) = add_trace t w
            /\ Forall (polled_event items) t.
Proof.
  revert w. induction items as [|[e i] items IH]; intros w.
  - exists []. by rewrite add_trace_nil.
  - cbn [for_polled_entities]. unfold bind at 1.
    assert (Hweak : forall t, Forall (polled_event items) t ->
                              Forall (polled_event ((e, i) :: items)) t).
    { intros t. apply Forall_impl, polled_event_cons. }
    destruct (interval_truthy i).
    + unfold try_except, await_async_update.
      destruct (async_update env e) as [[]|ex].
      * destruct (IH (emit (EvAsyncUpdate e) w)) as (t & -> & Ht).
        exists (EvAsyncUpdate e :: t). split.
        { by rewrite emit_add_trace, add_trace_app. }
        constructor; [simpl; by left | by apply Hweak].
      * destruct (isinstance_InverterError ex).
        -- run_py.
           destruct (IH (emit (EvDebug "Failed to update entity %s" [ArgStr (name e)])
                           (emit (EvAsyncUpdate e) w))) as (t & -> & Ht).
           exists (EvAsyncUpdate e
                     :: EvDebug "Failed to update entity %s" [ArgStr (name e)] :: t).
           split.
           { by rewrite !emit_add_trace, !add_trace_app. }
           constructor; [simpl; by left|]. constructor; [done | by apply Hweak].
        -- exists [EvAsyncUpdate e]. split; [done|].
           constructor; [simpl; by left | constructor].
    + run_py. destruct (IH w) as (t & -> & Ht). exists t. split; [done | by apply Hweak].
Qed.

Lemma update_polled_entities_run (w : world) :
  exists t, _update_polled_entities env w
            = (fst (_update_polled_entities env w), add_trace t w)
            /\ Forall (polled_event (_polled_entities w)) t.
Proof.
  destruct (for_polled_entities_frame (_polled_entities w) w) as (t & Ht & HP).
  exists t. split; [|done]. rewrite <- Ht.
  unfold _update_polled_entities. run_py.
  by destruct (for_polled_entities env (_polled_entities w) w).
Qed.

Lemma for_polled_entities_app (l1 l2 : registry) (w : world) :
  for_polled_entities env (l1 ++ l2) w
  = match for_polled_entities env l1 w with
    | (Ok _, w') => for_polled_entities env l2 w'
    | (Raise ex, w') => (Raise ex, w')
    end.
Proof.
  revert w. induction l1 as [|[e i] l1 IH]; intros w; [done|].
  cbn [app for_polled_entities]. unfold bind.
  match goal with
  | |- context [let (_, _) := ?m w in _] => destruct (m w) as [[[]|ex] w1]
  end; [apply IH | done].
Qed.

Lemma for_polled_entities_raises (items : registry) (w : world) (ex : exn) :
  fst (for_polled_entities env items w) = Raise ex ->
  isinstance_InverterError ex = false
  /\ exists e i, (e, i) ∈ items /\ interval_truthy i = true
                 /\ async_update env e = Raise ex.
Proof.
  revert w. induction items as [|[e i] items IH]; intros w; [done|].
  cbn [for_polled_entities]. unfold bind, try_except, await_async_update.
  destruct (interval_truthy i) eqn:Hi.
  - destruct (async_update env e) as [[]|ex'] eqn:Hu.
    + intros H. destruct (IH _ H) as (? & e' & i' & ? & ? & ?).
      split; [done|]. exists e', i'. split; [by right | done].
    + destruct (isinstance_InverterError ex') eqn:Hx.
      * run_py. intros H. destruct (IH _ H) as (? & e' & i' & ? & ? & ?).
        split; [done|]. exists e', i'. split; [by right | done].
      * simpl. intros [= <-]. split; [done|]. exists e, i. split; [by left | done].
  - run_py. intros H. destruct (IH _ H) as (? & e' & i' & ? & ? & ?).
    split; [done|]. exists e', i'. split; [by right | done].
Qed.
End polled.

Lemma grows_refl (P : event -> Prop) (w : world) : grows P w w.
Proof. exists []. by rewrite app_nil_r. Qed.

Lemma grows_trans (P : event -> Prop) (w1 w2 w3 : world) :
  grows P w1 w2 -> grows P w2 w3 -> grows P w1 w3.
Proof.
  intros (t1 & E1 & H1) (t2 & E2 & H2). exists (t1 ++ t2).
  split; [by rewrite E2, E1, app_assoc | by apply Forall_app].
Qed.

Lemma grows_weaken (P Q : event -> Prop) (w w' : world) :
  (forall ev, P ev -> Q ev) -> grows P w w' -> grows Q w w'.
Proof. intros H (t & E & Ht). exists t. split; [done|]. by eapply Forall_impl. Qed.

Lemma refresh_frame (env : cycle) (w : world) :
  _polled_entities (snd (refresh env w)) = _polled_entities w
  /\ _host (snd (refresh env w)) = _host w
  /\ _cancel_wakeup_interval (snd (refresh env w)) = _cancel_wakeup_interval w
  /\ started_listener (snd (refresh env w)) = started_listener w
  /\ timers (snd (refresh env w)) = timers w
  /\ next_handle (snd (refresh env w)) = next_handle w
  /\ grows (cycle_event (_polled_entities w)) w (snd (refresh env w)).
Proof.
  destruct (update_polled_entities_run env w) as (t & E & Ht).
  assert (Hc : Forall (cycle_event (_polled_entities w)) t)
    by (eapply Forall_impl; [apply polled_cycle_event | exact Ht]).
  exec_cycle. rewrite E.
  destruct (fst (_update_polled_entities env w)) as [[]|ex]; simpl.
  2: { repeat split. solve_grows. }
  cycle_cases env w; repeat split; solve_grows.
Qed.

(** ** The refresh cycle *)

Lemma dict_truthy_false (d : dict) : dict_truthy d = false -> d = ∅.
Proof.
  unfold dict_truthy. intros H. apply bool_decide_eq_false in H.
  destruct (decide (d = ∅)); [done | by destruct H].
Qed.

(** C1: a cycle whose telemetry read fails with a streak below 3 reports no
    failure to the host and returns the snapshot that was current before the
    cycle (the empty mapping when none was set): the very dict object when the
    current snapshot was a non-empty dict. *)
Theorem refresh_short_streak_returns_previous (env : cycle) (w : world) (n : Z) :
  fst (_update_polled_entities env w) = Ok tt ->
  read_runtime_data env = Raise (RequestFailedException n) ->
  n < 3 ->
  exists r,
    fst (refresh env w) = Ok r
    /\ heap (snd (refresh env w)) r = current_snapshot w
    /\ data (snd (refresh env w)) = Some r
    /\ (forall r0, data w = Some r0 -> heap w r0 <> ∅ -> r = r0).
Proof.
  intros Hpoll Hread Hn.
  destruct (update_polled_entities_run env w) as (t & E & _).
  rewrite Hpoll in E. apply Z.ltb_lt in Hn.
  unfold current_snapshot. exec_cycle. rewrite E, Hread. simpl.
  destruct (data w) as [r0|] eqn:Hd; simpl.
  - destruct (dict_truthy (heap w r0)) eqn:Ht; simpl; rewrite Hn; simpl.
    + exists r0. repeat split; try done. intros; congruence.
    + apply dict_truthy_false in Ht. eexists. repeat split.
      * by rewrite fn_lookup_insert.
      * intros r1 [= <-] Hne. by destruct Hne.
  - rewrite Hn. simpl. eexists. repeat split; [by rewrite fn_lookup_insert | done].
Qed.

Lemma refresh_short_streak_returns_previous_witness :
  exists r,
    fst (refresh (cycle_read_raises (RequestFailedException 1))
           (run [Refresh (cycle_reads {[ "power" := VInt 500 ]})]
                     (fresh_coordinator "192.168.1.14"))) = Ok r
    /\ heap (snd (refresh (cycle_read_raises (RequestFailedException 1))
                   (run [Refresh (cycle_reads {[ "power" := VInt 500 ]})]
                             (fresh_coordinator "192.168.1.14")))) r
       = {[ "power" := VInt 500 ]}.
Proof.
  destruct (refresh_short_streak_returns_previous
              (cycle_read_raises (RequestFailedException 1))
              (run [Refresh (cycle_reads {[ "power" := VInt 500 ]})]
                        (fresh_coordinator "192.168.1.14"))
              1 eq_refl eq_refl ltac:(lia)) as (r & Hr & Hh & _).
  exists r. split; [exact Hr|]. rewrite Hh. reflexivity.
Defined.

(** C2: a cycle whose telemetry read fails with a streak of 3 or more, or
    with any other device error, raises [UpdateFailed] carrying that error;
    [self.data] and [self._last_data] stay as the rotation of this cycle set
    them: the current snapshot is the one from before the cycle, and the
    last-known snapshot equals it. *)
Theorem refresh_escalates (env : cycle) (w : world) (ex : exn) :
  fst (_update_polled_entities env w) = Ok tt ->
  read_runtime_data env = Raise ex ->
  (exists n, ex = RequestFailedException n /\ 3 <= n) \/ (exists k, ex = InverterError k) ->
  fst (refresh env w) = Raise (UpdateFailed ex)
  /\ data (snd (refresh env w))
     = data (snd (rotate_last_data (snd (_update_polled_entities env w))))
  /\ _last_data (snd (refresh env w))
     = _last_data (snd (rotate_last_data (snd (_update_polled_entities env w))))
  /\ heap (snd (refresh env w))
     = heap (snd (rotate_last_data (snd (_update_polled_entities env w))))
  /\ data (snd (refresh env w)) = data w
  /\ current_snapshot (snd (refresh env w)) = current_snapshot w
  /\ last_known_snapshot (snd (refresh env w)) = current_snapshot w.
Proof.
  intros Hpoll Hread Hex.
  destruct (update_polled_entities_run env w) as (t & E & _).
  rewrite Hpoll in E.
  assert (Hh : match ex with
               | RequestFailedException n => (n <? 3) = false
               | InverterError _ => True
               | _ => False
               end).
  { destruct Hex as [(n & -> & Hn)|(k & ->)]; [by apply Z.ltb_ge | done]. }
  unfold current_snapshot, last_known_snapshot. exec_cycle.
  rewrite E, Hread. simpl.
  destruct ex; try done;
    (destruct (data w) as [r0|] eqn:Hd; simpl;
     [ destruct (dict_truthy (heap w r0)) eqn:Ht; simpl; rewrite ?Hh; simpl; rewrite ?Hd;
       [ by repeat split
       | apply dict_truthy_false in Ht; repeat split; try done;
         [ unfold insert, fn_insert; by case_decide; simplify_eq
         | by rewrite fn_lookup_insert ] ]
     | rewrite ?Hh; simpl; rewrite ?Hd; repeat split; by rewrite fn_lookup_insert ]).
Qed.

Lemma refresh_escalates_witness :
  fst (refresh (cycle_read_raises (RequestFailedException 3))
         (run [Refresh (cycle_reads {[ "power" := VInt 500 ]});
                    Refresh (cycle_read_raises (RequestFailedException 1))]
                   (fresh_coordinator "192.168.1.14")))
  = Raise (UpdateFailed (RequestFailedException 3))
  /\ last_known_snapshot
       (snd (refresh (cycle_read_raises (RequestFailedException 3))
              (run [Refresh (cycle_reads {[ "power" := VInt 500 ]});
                         Refresh (cycle_read_raises (RequestFailedException 1))]
                        (fresh_coordinator "192.168.1.14"))))
     = {[ "power" := VInt 500 ]}.
Proof.
  destruct (refresh_escalates
              (cycle_read_raises (RequestFailedException 3))
              (run [Refresh (cycle_reads {[ "power" := VInt 500 ]});
                         Refresh (cycle_read_raises (RequestFailedException 1))]
                        (fresh_coordinator "192.168.1.14"))
              (RequestFailedException 3))
    as (Hr & _ & _ & _ & _ & _ & Hl).
  - vm_compute. reflexivity.
  - reflexivity.
  - left. exists 3. split; [reflexivity | lia].
  - split; [exact Hr|]. rewrite Hl. vm_compute. reflexivity.
Defined.

(** ** Secondary refreshes *)

Lemma refresh_reaches_read (env : cycle) (w : world) :
  fst (_update_polled_entities env w) = Ok tt ->
  EvReadRuntimeData ∈ trace (snd (refresh env w)).
Proof.
  intros Hpoll. destruct (update_polled_entities_run env w) as (t & E & _).
  rewrite Hpoll in E. exec_cycle. rewrite E. simpl.
  cycle_cases env w; rewrite ?elem_of_app, ?list_elem_of_singleton; tauto.
Qed.

(** C4: when the update of a polled entity raises a device communication
    error ([InverterError]), the error is caught on the spot: the phase goes on
    exactly as the loop over the remaining entities does, from the state in
    which the call and one log record naming the entity were made. The phase
    never raises an [InverterError] to its caller, and when the remaining
    entities let the loop finish the cycle proceeds to the telemetry read. *)
Theorem polled_inverter_error_is_swallowed
    (env : cycle) (w : world) (before after : registry)
    (entity : entity) (interval : interval) (ex : exn) :
  _polled_entities w = before ++ (entity, interval) :: after ->
  fst (for_polled_entities env before w) = Ok tt ->
  interval_truthy interval = true ->
  async_update env entity = Raise ex ->
  isinstance_InverterError ex = true ->
  _update_polled_entities env w
  = for_polled_entities env after
      (emit (EvDebug "Failed to update entity %s" [ArgStr (name entity)])
         (emit (EvAsyncUpdate entity) (snd (for_polled_entities env before w))))
  /\ (forall ex', fst (_update_polled_entities env w) = Raise ex' ->
                  isinstance_InverterError ex' = false)
  /\ (fst (for_polled_entities env after
             (emit (EvDebug "Failed to update entity %s" [ArgStr (name entity)])
                (emit (EvAsyncUpdate entity) (snd (for_polled_entities env before w)))))
      = Ok tt ->
      EvReadRuntimeData ∈ trace (snd (refresh env w))).
Proof.
  intros Hreg Hbefore Hi Hu Hx.
  assert (Heq : _update_polled_entities env w
    = for_polled_entities env after
      (emit (EvDebug "Failed to update entity %s" [ArgStr (name entity)])
         (emit (EvAsyncUpdate entity) (snd (for_polled_entities env before w))))).
  { unfold _update_polled_entities. run_py. rewrite Hreg, for_polled_entities_app.
    destruct (for_polled_entities env before w) as [res w1]. simpl in *. subst res.
    cbn [for_polled_entities]. unfold bind at 1.
    rewrite Hi. unfold try_except, await_async_update. rewrite Hu, Hx. by run_py. }
  split; [exact Heq|]. split.
  - intros ex' H. unfold _update_polled_entities in H. run_py.
    by destruct (for_polled_entities_raises _ _ _ _ H).
  - intros Hafter. apply refresh_reaches_read. by rewrite Heq.
Qed.

Lemma polled_inverter_error_is_swallowed_witness :
  fst (_update_polled_entities (cycle_entity_a_fails {[ "ppv" := VInt 500 ]})
         (run [EntityStatePolling entity_a (Some 30);
               EntityStatePolling entity_b (Some 30)]
              (fresh_coordinator "192.168.1.14"))) = Ok tt
  /\ trace (snd (_update_polled_entities (cycle_entity_a_fails {[ "ppv" := VInt 500 ]})
                   (run [EntityStatePolling entity_a (Some 30);
                         EntityStatePolling entity_b (Some 30)]
                        (fresh_coordinator "192.168.1.14"))))
     = [EvAsyncUpdate entity_a;
        EvDebug "Failed to update entity %s" [ArgStr "Grid export limit"];
        EvAsyncUpdate entity_b].
Proof.
  destruct (polled_inverter_error_is_swallowed
              (cycle_entity_a_fails {[ "ppv" := VInt 500 ]})
              (run [EntityStatePolling entity_a (Some 30);
                    EntityStatePolling entity_b (Some 30)]
                   (fresh_coordinator "192.168.1.14"))
              [] [(entity_b, Some 30)] entity_a (Some 30)
              (RequestFailedException 1)
              eq_refl eq_refl eq_refl eq_refl eq_refl) as (Heq & _ & _).
  rewrite Heq. split; reflexivity.
Defined.

(** ** The wake-up steps, one by one *)

Lemma send_wakeup_packet_run (outcome : result (option (list byte))) (w : world) :
  exists t, snd (_send_wakeup_packet outcome w) = add_trace t w
            /\ Forall wakeup_event t.
Proof.
  unfold _send_wakeup_packet, try_except, await_execute. run_py.
  destruct outcome as [[raw|]|[]]; simpl;
    rewrite !emit_add_trace, !add_trace_app; eexists; (split; [reflexivity|]);
    by repeat constructor.
Qed.

Lemma fire_timer_run (h : handle) (outcome : result (option (list byte))) (w : world) :
  exists t, snd (fire_timer h outcome w) = add_trace t w
            /\ Forall wakeup_event t
            /\ (timers w !! h = None -> t = []).
Proof.
  unfold fire_timer. run_py. destruct (timers w !! h) as [[? ? []]|]; simpl.
  - destruct (send_wakeup_packet_run outcome w) as (t & E & Ht).
    exists t. by repeat split.
  - exists []. by rewrite add_trace_nil.
Qed.

Lemma fire_started_run (w : world) :
  snd (fire_started w)
  = if started_listener w then
      set_cancel_wakeup_interval (Some (next_handle w))
        (emit (EvTrackTimeInterval (next_handle w)
                 {| timer_interval := 600;
                    timer_name := "goodwe_inverter_send_wakeup_packet";
                    timer_action := send_wakeup_packet |})
           (set_timers (<[next_handle w :=
                            {| timer_interval := 600;
                               timer_name := "goodwe_inverter_send_wakeup_packet";
                               timer_action := send_wakeup_packet |}]> (timers w))
                       (S (next_handle w))
                       (set_started_listener false w)))
    else w.
Proof.
  unfold fire_started, _start_wakeup_interval, async_track_time_interval, never_awaited.
  run_py. by destruct (started_listener w).
Qed.

Lemma async_shutdown_run (w : world) :
  async_shutdown w
  = (Ok super_async_shutdown,
     match _cancel_wakeup_interval w with
     | Some h =>
         set_cancel_wakeup_interval None
           (emit (EvCancel h) (set_timers (delete h (timers w)) (next_handle w) w))
     | None => w
     end).
Proof.
  unfold async_shutdown, call_cancel. run_py.
  by destruct (_cancel_wakeup_interval w).
Qed.

Lemma reset_sensor_run (sensor : string) (w : world) :
  snd (reset_sensor sensor w)
  = match data w with
    | Some r =>
        set_heap (fun h => <[r := <[sensor := VInt 0]> (h r)]> h)
          (set_heap (fun h => <[_last_data w := <[sensor := VInt 0]> (h (_last_data w))]> h) w)
    | None =>
        set_heap (fun h => <[_last_data w := <[sensor := VInt 0]> (h (_last_data w))]> h) w
    end.
Proof. unfold reset_sensor. run_py. by destruct (data w). Qed.

Lemma entity_state_polling_run (e : entity) (i : interval) (w : world) :
  entity_state_polling e i w
  = (Ok tt,
     set_polled_entities
       (if interval_truthy i then registry_setitem e i (_polled_entities w)
        else registry_pop e (_polled_entities w)) w).
Proof. unfold entity_state_polling. run_py. by destruct (interval_truthy i). Qed.

(** ** Resetting a sensor *)

Lemma dict_truthy_lookup (d : dict) (k : string) (v : value) :
  d !! k = Some v -> dict_truthy d = true.
Proof.
  intros H. unfold dict_truthy. apply bool_decide_eq_true. intros ->.
  by rewrite lookup_empty in H.
Qed.

(** A cycle whose read fails keeps a non-empty current snapshot where it is:
    the same dict object, the same store. *)
Lemma refresh_failed_read_keeps_data (env : cycle) (w : world) (r : loc) (ex : exn) :
  read_runtime_data env = Raise ex ->
  data w = Some r ->
  dict_truthy (heap w r) = true ->
  data (snd (refresh env w)) = Some r /\ heap (snd (refresh env w)) = heap w.
Proof.
  intros Hread Hd Ht.
  destruct (update_polled_entities_run env w) as (t & E & _).
  exec_cycle. rewrite E, Hread.
  destruct (fst (_update_polled_entities env w)) as [[]|ex']; simpl; [|done].
  rewrite Hd, Ht. simpl.
  destruct ex; simpl; try done. by destruct (_ <? 3).
Qed.

Lemma step_keeps_zero (sensor : string) (c : call) (w : world) (r : loc) :
  successful_read c = false ->
  data w = Some r ->
  heap w r !! sensor = Some (VInt 0) ->
  data (step c w) = Some r /\ heap (step c w) r !! sensor = Some (VInt 0).
Proof.
  intros Hc Hd Hz. destruct c as [|h outcome|env| |sensor'|e i]; simpl.
  - rewrite fire_started_run. by destruct (started_listener w).
  - by destruct (fire_timer_run h outcome w) as (t & -> & _).
  - simpl in Hc. destruct (read_runtime_data env) as [|ex] eqn:Hread; [done|].
    destruct (refresh_failed_read_keeps_data env w r ex Hread Hd) as [-> ->]; [|done].
    by eapply dict_truthy_lookup.
  - rewrite async_shutdown_run. simpl. by destruct (_cancel_wakeup_interval w).
  - rewrite reset_sensor_run, Hd. simpl. split; [done|].
    rewrite fn_lookup_insert.
    destruct (decide (sensor' = sensor)) as [->|Hne]; [by rewrite lookup_insert_eq|].
    rewrite lookup_insert_ne by done.
    destruct (decide (_last_data w = r)) as [<-|Hl].
    + by rewrite fn_lookup_insert, lookup_insert_ne.
    + by rewrite fn_lookup_insert_ne.
  - by rewrite entity_state_polling_run.
Qed.

Lemma run_keeps_zero (sensor : string) (calls : list call) (w : world) (r : loc) :
  Forall (fun c => successful_read c = false) calls ->
  data w = Some r ->
  heap w r !! sensor = Some (VInt 0) ->
  data (run calls w) = Some r /\ heap (run calls w) r !! sensor = Some (VInt 0).
Proof.
  revert w. induction calls as [|c calls IH]; intros w Hall Hd Hz; [done|].
  inversion Hall as [|? ? Hc Hrest]; subst.
  destruct (step_keeps_zero sensor c w r Hc Hd Hz) as [Hd' Hz'].
  by apply IH.
Qed.

(** C8 (as amended): whenever the current snapshot is set, [reset_sensor]
    returns normally with both [current[id]] and [lastKnown[id]] at zero, and
    [sensor_value] of that id is zero after any calls that follow as long as
    none of them is a refresh with a successful read. *)
Theorem reset_sensor_zeroes_both (w : world) (r : loc) (sensor : string) :
  data w = Some r ->
  fst (reset_sensor sensor w) = Ok tt
  /\ current_snapshot (snd (reset_sensor sensor w)) !! sensor = Some (VInt 0)
  /\ last_known_snapshot (snd (reset_sensor sensor w)) !! sensor = Some (VInt 0)
  /\ forall calls,
       Forall (fun c => successful_read c = false) calls ->
       fst (sensor_value sensor (run calls (snd (reset_sensor sensor w)))) = Ok (VInt 0).
Proof.
  intros Hd.
  assert (Hcur : data (snd (reset_sensor sensor w)) = Some r
                 /\ heap (snd (reset_sensor sensor w)) r !! sensor = Some (VInt 0)).
  { rewrite reset_sensor_run, Hd. simpl. split; [done|].
    by rewrite fn_lookup_insert, lookup_insert_eq. }
  destruct Hcur as [Hd' Hz'].
  split; [|split; [|split]].
  - unfold reset_sensor. run_py. by rewrite Hd.
  - unfold current_snapshot. by rewrite Hd'.
  - unfold last_known_snapshot. rewrite reset_sensor_run, Hd. simpl.
    destruct (decide (r = _last_data w)) as [<-|Hne].
    + by rewrite fn_lookup_insert, lookup_insert_eq.
    + rewrite fn_lookup_insert_ne by done.
      by rewrite fn_lookup_insert, lookup_insert_eq.
  - intros calls Hall.
    destruct (run_keeps_zero sensor calls _ r Hall Hd' Hz') as [Hd2 Hz2].
    rewrite (sensor_value_set _ r sensor Hd2).
    simpl. unfold spec_sensorValue. by rewrite Hz2.
Qed.

Lemma reset_sensor_zeroes_both_witness :
  fst (sensor_value "e_day"
         (run [Refresh (cycle_read_raises (RequestFailedException 1));
               TimerDue 0%nat (Ok None);
               Refresh (cycle_read_raises (RequestFailedException 3))]
              (snd (reset_sensor "e_day"
                      (run [Refresh (cycle_reads {[ "e_day" := VFloat 37 (-2) ]})]
                           (fresh_coordinator "192.168.1.14"))))))
  = Ok (VInt 0).
Proof.
  destruct (reset_sensor_zeroes_both
              (run [Refresh (cycle_reads {[ "e_day" := VFloat 37 (-2) ]})]
                   (fresh_coordinator "192.168.1.14"))
              2%nat "e_day" eq_refl) as (_ & _ & _ & H).
  apply H. repeat constructor.
Defined.

(** C8 (as stated) fails before the first snapshot: with [self.data] unset,
    [reset_sensor] raises after zeroing only [lastKnown[id]], the current
    snapshot stays unset, and the next [sensor_value] raises as well. *)
Lemma reset_sensor_unset_counterexample :
  fst (reset_sensor "e_day" (fresh_coordinator "192.168.1.14")) = Raise TypeError
  /\ data (snd (reset_sensor "e_day" (fresh_coordinator "192.168.1.14"))) = None
  /\ fst (sensor_value "e_day" (snd (reset_sensor "e_day" (fresh_coordinator "192.168.1.14"))))
     = Raise AttributeError.
Proof. repeat split. Qed.

Lemma refresh_sets_data (env : cycle) (w : world) :
  match fst (refresh env w) with
  | Ok r => data (snd (refresh env w)) = Some r
  | Raise _ => data (snd (refresh env w)) = data w
  end.
Proof.
  destruct (update_polled_entities_run env w) as (t & E & _).
  exec_cycle. rewrite E.
  destruct (fst (_update_polled_entities env w)) as [[]|ex]; simpl; [|done].
  cycle_cases env w; done.
Qed.

Lemma step_keeps_data_set (c : call) (w : world) :
  data w <> None -> data (step c w) <> None.
Proof.
  intros Hd. destruct c as [|h outcome|env| |sensor|e i]; simpl.
  - rewrite fire_started_run. by destruct (started_listener w).
  - by destruct (fire_timer_run h outcome w) as (t & -> & _).
  - pose proof (refresh_sets_data env w) as H.
    destruct (fst (refresh env w)); by rewrite H.
  - rewrite async_shutdown_run. simpl. by destruct (_cancel_wakeup_interval w).
  - rewrite reset_sensor_run. destruct (data w) eqn:E; [|done]. simpl. by rewrite E.
  - by rewrite entity_state_polling_run.
Qed.

Lemma run_keeps_data_set (calls : list call) (w : world) :
  data w <> None -> data (run calls w) <> None.
Proof.
  revert w. induction calls as [|c calls IH]; intros w Hd; [done|].
  simpl. by apply IH, step_keeps_data_set.
Qed.

(** C10: while [self.data] is unset, as it is right after construction,
    [sensor_value] and [total_sensor_value] raise [AttributeError] and leave
    the state alone, and [reset_sensor] raises [TypeError]: it has set
    [lastKnown[id]] to zero by then, and the current snapshot is still unset.
    Once [self.data] is set all three return; a refresh that returns sets it,
    and no call unsets it. *)
Theorem consumer_calls_need_a_snapshot (w : world) (sensor : string) :
  (data w = None ->
     sensor_value sensor w = (Raise AttributeError, w)
     /\ total_sensor_value sensor w = (Raise AttributeError, w)
     /\ fst (reset_sensor sensor w) = Raise TypeError
     /\ data (snd (reset_sensor sensor w)) = None
     /\ last_known_snapshot (snd (reset_sensor sensor w)) !! sensor = Some (VInt 0))
  /\ (data w <> None ->
     (exists v, fst (sensor_value sensor w) = Ok v)
     /\ (exists v, fst (total_sensor_value sensor w) = Ok v)
     /\ fst (reset_sensor sensor w) = Ok tt)
  /\ (forall host, data (fresh_coordinator host) = None)
  /\ (forall env r, fst (refresh env w) = Ok r -> data (snd (refresh env w)) = Some r)
  /\ (forall calls, data w <> None -> data (run calls w) <> None).
Proof.
  split; [|split; [|split; [|split]]].
  - intros Hd. repeat split.
    + unfold sensor_value, bind. by rewrite (data_get_unset _ _ Hd).
    + unfold total_sensor_value, bind. by rewrite (data_get_unset _ _ Hd).
    + unfold reset_sensor. run_py. by rewrite Hd.
    + by rewrite reset_sensor_run, Hd.
    + unfold last_known_snapshot. rewrite reset_sensor_run, Hd. simpl.
      by rewrite fn_lookup_insert, lookup_insert_eq.
  - intros Hd. destruct (data w) as [r|] eqn:Hr; [|done].
    rewrite (sensor_value_set w r sensor Hr), (total_sensor_value_set w r sensor Hr).
    repeat split; try by eexists.
    unfold reset_sensor. run_py. by rewrite Hr.
  - done.
  - intros env r Hr. pose proof (refresh_sets_data env w) as H. by rewrite Hr in H.
  - intros calls. apply run_keeps_data_set.
Qed.

Lemma consumer_calls_need_a_snapshot_witness :
  sensor_value "e_day" (fresh_coordinator "192.168.1.14")
  = (Raise AttributeError, fresh_coordinator "192.168.1.14")
  /\ fst (reset_sensor "e_day" (fresh_coordinator "192.168.1.14")) = Raise TypeError.
Proof.
  destruct (consumer_calls_need_a_snapshot (fresh_coordinator "192.168.1.14") "e_day")
    as (H & _).
  destruct (H eq_refl) as (H1 & _ & H3 & _). split; [exact H1 | exact H3].
Defined.

(** ** The registry of polled entities *)

Lemma registry_setitem_get (e : entity) (i : interval) (d : registry) :
  registry_get e (registry_setitem e i d) = Some i.
Proof.
  induction d as [|[e' i'] d IH]; simpl.
  - by rewrite decide_True.
  - destruct (decide (e = e')) as [->|Hne]; simpl.
    + by rewrite decide_True.
    + by rewrite decide_False.
Qed.

Lemma registry_setitem_get_ne (e e' : entity) (i : interval) (d : registry) :
  e' <> e -> registry_get e' (registry_setitem e i d) = registry_get e' d.
Proof.
  intros Hne. induction d as [|[e'' i''] d IH]; simpl.
  - by rewrite decide_False.
  - destruct (decide (e = e'')) as [->|Hne']; simpl.
    + by rewrite !decide_False.
    + by rewrite IH.
Qed.

Lemma registry_pop_get_ne (e e' : entity) (d : registry) :
  e' <> e -> registry_get e' (registry_pop e d) = registry_get e' d.
Proof.
  intros Hne. induction d as [|[e'' i''] d IH]; simpl; [done|].
  destruct (decide (e = e'')) as [->|Hne']; simpl.
  - by rewrite decide_False.
  - by rewrite IH.
Qed.

Lemma registry_setitem_keys (e : entity) (i : interval) (d : registry) (x : entity) :
  x ∈ (registry_setitem e i d).*1 <-> x = e \/ x ∈ d.*1.
Proof.
  induction d as [|[e' i'] d IH]; simpl.
  - rewrite list_elem_of_singleton. split; [by left | by intros [|?%elem_of_nil]].
  - destruct (decide (e = e')) as [->|Hne]; simpl.
    + rewrite !elem_of_cons. tauto.
    + rewrite !elem_of_cons, IH. tauto.
Qed.

Lemma registry_pop_keys (e : entity) (d : registry) (x : entity) :
  x ∈ (registry_pop e d).*1 -> x ∈ d.*1.
Proof.
  induction d as [|[e' i'] d IH]; simpl; [done|].
  destruct (decide (e = e')) as [->|Hne]; simpl.
  - by right.
  - rewrite !elem_of_cons. tauto.
Qed.

Lemma registry_pop_absent (e : entity) (d : registry) :
  e ∉ d.*1 -> registry_pop e d = d.
Proof.
  induction d as [|[e' i'] d IH]; simpl; [done|].
  rewrite not_elem_of_cons. intros [Hne Hnin].
  rewrite decide_False by done. by rewrite IH.
Qed.

Lemma registry_pop_removes (e : entity) (d : registry) :
  NoDup d.*1 -> e ∉ (registry_pop e d).*1.
Proof.
  induction d as [|[e' i'] d IH]; simpl; [intros _; apply not_elem_of_nil|].
  rewrite list.NoDup_cons. intros [Hnin Hnd].
  destruct (decide (e = e')) as [->|Hne]; simpl; [done|].
  rewrite not_elem_of_cons. split; [done | by apply IH].
Qed.

Lemma registry_setitem_NoDup (e : entity) (i : interval) (d : registry) :
  NoDup d.*1 -> NoDup (registry_setitem e i d).*1.
Proof.
  induction d as [|[e' i'] d IH]; simpl.
  - intros _. apply NoDup_singleton.
  - rewrite list.NoDup_cons. intros [Hnin Hnd].
    destruct (decide (e = e')) as [->|Hne]; simpl.
    + by apply list.NoDup_cons.
    + apply list.NoDup_cons. split; [|by apply IH].
      rewrite registry_setitem_keys. intros [|]; [congruence | done].
Qed.

Lemma registry_pop_NoDup (e : entity) (d : registry) :
  NoDup d.*1 -> NoDup (registry_pop e d).*1.
Proof.
  induction d as [|[e' i'] d IH]; simpl; [done|].
  rewrite list.NoDup_cons. intros [Hnin Hnd].
  destruct (decide (e = e')) as [->|Hne]; simpl; [done|].
  apply list.NoDup_cons. split; [|by apply IH].
  intros H. by apply Hnin, (registry_pop_keys e).
Qed.

Lemma registry_setitem_idem (e : entity) (i : interval) (d : registry) :
  registry_setitem e i (registry_setitem e i d) = registry_setitem e i d.
Proof.
  induction d as [|[e' i'] d IH]; simpl.
  - by rewrite decide_True.
  - destruct (decide (e = e')) as [->|Hne]; simpl.
    + by rewrite decide_True.
    + by rewrite decide_False, IH.
Qed.

Lemma registry_get_None (e : entity) (d : registry) :
  e ∉ d.*1 -> registry_get e d = None.
Proof.
  induction d as [|[e' i'] d IH]; simpl; [done|].
  rewrite not_elem_of_cons. intros [Hne Hnin]. by rewrite decide_False, IH.
Qed.

(** A call that does not register [e] leaves it out of the registry, and
    never calls its [async_update]. *)
Lemma step_never_polls (e : entity) (c : call) (w : world) :
  e ∉ (_polled_entities w).*1 ->
  registers e c = false ->
  (e ∉ (_polled_entities (step c w)).*1)
  /\ grows (fun ev => ev <> EvAsyncUpdate e) w (step c w).
Proof.
  intros Hnin Hc. destruct c as [|h outcome|env| |sensor|e' i]; simpl.
  - rewrite fire_started_run. destruct (started_listener w); simpl.
    + split; [done | solve_grows].
    + split; [done | apply grows_refl].
  - destruct (fire_timer_run h outcome w) as (t & -> & Ht & _). split; [done|].
    exists t. split; [done|]. eapply Forall_impl; [|exact Ht]. by intros [].
  - destruct (refresh_frame env w) as (-> & _ & _ & _ & _ & _ & Hg).
    split; [done|]. eapply grows_weaken; [|exact Hg].
    intros [] H; try done. simpl in H. congruence.
  - rewrite async_shutdown_run. simpl. destruct (_cancel_wakeup_interval w); simpl.
    + split; [done | solve_grows].
    + split; [done | apply grows_refl].
  - rewrite reset_sensor_run. destruct (data w); simpl; (split; [done | solve_grows]).
  - rewrite entity_state_polling_run. simpl. split; [|solve_grows].
    simpl in Hc. destruct (interval_truthy i).
    + rewrite registry_setitem_keys. intros [->|]; [|done].
      by rewrite bool_decide_eq_true_2 in Hc.
    + intros H. by apply Hnin, (registry_pop_keys e').
Qed.

Lemma run_never_polls (e : entity) (calls : list call) (w : world) :
  e ∉ (_polled_entities w).*1 ->
  Forall (fun c => registers e c = false) calls ->
  grows (fun ev => ev <> EvAsyncUpdate e) w (run calls w).
Proof.
  revert w. induction calls as [|c calls IH]; intros w Hnin Hall; [apply grows_refl|].
  inversion Hall as [|? ? Hc Hrest]; subst.
  destruct (step_never_polls e c w Hnin Hc) as [Hnin' Hg].
  eapply grows_trans; [exact Hg|]. by apply IH.
Qed.

(** C9: [entity_state_polling] with a truthy interval leaves the entity in
    the registry under that interval, with a zero or absent interval leaves it
    out of the registry; the other entries stay, a repeated call changes
    nothing more, and once the entity is out no later call (refresh cycles
    included) runs its [async_update] unless one registers it again. *)
Theorem entity_state_polling_registers (w : world) (e : entity) (i : interval) :
  NoDup (_polled_entities w).*1 ->
  fst (entity_state_polling e i w) = Ok tt
  /\ (interval_truthy i = true ->
      registry_get e (_polled_entities (snd (entity_state_polling e i w))) = Some i)
  /\ (interval_truthy i = false ->
      (e ∉ (_polled_entities (snd (entity_state_polling e i w))).*1)
      /\ registry_get e (_polled_entities (snd (entity_state_polling e i w))) = None)
  /\ (forall e', e' <> e ->
      registry_get e' (_polled_entities (snd (entity_state_polling e i w)))
      = registry_get e' (_polled_entities w))
  /\ NoDup (_polled_entities (snd (entity_state_polling e i w))).*1
  /\ entity_state_polling e i (snd (entity_state_polling e i w))
     = entity_state_polling e i w
  /\ (interval_truthy i = false ->
      forall calls,
        Forall (fun c => registers e c = false) calls ->
        grows (fun ev => ev <> EvAsyncUpdate e)
          (snd (entity_state_polling e i w))
          (run calls (snd (entity_state_polling e i w)))).
Proof.
  intros Hnd. rewrite !entity_state_polling_run. simpl.
  destruct (interval_truthy i) eqn:Hi.
  - split; [done|]. split; [intros _; apply registry_setitem_get|].
    split; [done|]. split; [intros e' Hne; by apply registry_setitem_get_ne|].
    split; [by apply registry_setitem_NoDup|].
    split; [|done]. unfold set_polled_entities; simpl. by rewrite registry_setitem_idem.
  - pose proof (registry_pop_removes e _ Hnd) as Hout.
    split; [done|]. split; [done|].
    split; [intros _; split; [done | by apply registry_get_None]|].
    split; [intros e' Hne; by apply registry_pop_get_ne|].
    split; [by apply registry_pop_NoDup|].
    split.
    + unfold set_polled_entities; simpl. by rewrite registry_pop_absent.
    + intros _ calls Hall. by apply run_never_polls.
Qed.

Lemma step_registry_NoDup (c : call) (w : world) :
  NoDup (_polled_entities w).*1 -> NoDup (_polled_entities (step c w)).*1.
Proof.
  intros Hnd. destruct c as [|h outcome|env| |sensor|e i]; simpl.
  - rewrite fire_started_run. by destruct (started_listener w).
  - by destruct (fire_timer_run h outcome w) as (t & -> & _).
  - by destruct (refresh_frame env w) as (-> & _).
  - rewrite async_shutdown_run. simpl. by destruct (_cancel_wakeup_interval w).
  - rewrite reset_sensor_run. by destruct (data w).
  - rewrite entity_state_polling_run. simpl. destruct (interval_truthy i).
    + by apply registry_setitem_NoDup.
    + by apply registry_pop_NoDup.
Qed.

(** The registry of a coordinator holds every entity at most once. *)
Lemma run_registry_NoDup (calls : list call) (host : string) :
  NoDup (_polled_entities (run calls (fresh_coordinator host))).*1.
Proof.
  assert (H : forall w, NoDup (_polled_entities w).*1 ->
                        NoDup (_polled_entities (run calls w)).*1).
  { induction calls as [|c calls IH]; intros w Hnd; [done|].
    simpl. by apply IH, step_registry_NoDup. }
  apply H. simpl. constructor.
Qed.

Lemma entity_state_polling_registers_witness :
  registry_get entity_a
    (_polled_entities
       (snd (entity_state_polling entity_a (Some 0)
               (run [EntityStatePolling entity_a (Some 30);
                     EntityStatePolling entity_b (Some 30)]
                    (fresh_coordinator "192.168.1.14"))))) = None
  /\ registry_get entity_b
    (_polled_entities
       (snd (entity_state_polling entity_a (Some 0)
               (run [EntityStatePolling entity_a (Some 30);
                     EntityStatePolling entity_b (Some 30)]
                    (fresh_coordinator "192.168.1.14"))))) = Some (Some 30)
  /\ grows (fun ev => ev <> EvAsyncUpdate entity_a)
       (snd (entity_state_polling entity_a (Some 0)
               (run [EntityStatePolling entity_a (Some 30);
                     EntityStatePolling entity_b (Some 30)]
                    (fresh_coordinator "192.168.1.14"))))
       (run [Refresh (cycle_reads {[ "ppv" := VInt 500 ]});
             Refresh (cycle_read_raises (RequestFailedException 1))]
          (snd (entity_state_polling entity_a (Some 0)
                  (run [EntityStatePolling entity_a (Some 30);
                        EntityStatePolling entity_b (Some 30)]
                       (fresh_coordinator "192.168.1.14"))))).
Proof.
  destruct (entity_state_polling_registers
              (run [EntityStatePolling entity_a (Some 30);
                    EntityStatePolling entity_b (Some 30)]
                   (fresh_coordinator "192.168.1.14"))
              entity_a (Some 0))
    as (_ & _ & Hout & Hother & _ & _ & Hnever).
  - apply (bool_decide_unpack _). vm_compute. exact I.
  - split; [by apply Hout|]. split.
    + rewrite Hother; [reflexivity | discriminate].
    + apply Hnever; [reflexivity | repeat constructor].
Defined.

(** ** The keep-alive sender *)

Lemma step_wakeup_inv (c : call) (w : world) : wakeup_inv w -> wakeup_inv (step c w).
Proof.
  unfold wakeup_inv. intros Hinv.
  destruct c as [|h outcome|env| |sensor|e i]; simpl.
  - rewrite fire_started_run.
    destruct (started_listener w) eqn:Hl;
      destruct (_cancel_wakeup_interval w) as [h|] eqn:Hc; simpl; rewrite ?Hc; try done.
    + by destruct Hinv.
    + split; [done|]. by rewrite Hinv.
    + by rewrite Hl.
  - destruct (fire_timer_run h outcome w) as (t & -> & _). exact Hinv.
  - destruct (refresh_frame env w) as (_ & _ & -> & -> & -> & _). exact Hinv.
  - rewrite async_shutdown_run. simpl.
    destruct (_cancel_wakeup_interval w) as [h|] eqn:Hc; simpl; [|by rewrite Hc].
    destruct Hinv as [_ ->]. apply delete_singleton_eq.
  - rewrite reset_sensor_run. destruct (data w); exact Hinv.
  - rewrite entity_state_polling_run. exact Hinv.
Qed.

Lemma run_wakeup_inv (calls : list call) (host : string) :
  wakeup_inv (run calls (fresh_coordinator host)).
Proof.
  assert (H : forall w, wakeup_inv w -> wakeup_inv (run calls w)).
  { induction calls as [|c calls IH]; intros w Hinv; [done|].
    simpl. by apply IH, step_wakeup_inv. }
  by apply H.
Qed.

Lemma step_stopped (c : call) (w : world) :
  stopped w -> stopped (step c w) /\ grows no_execute w (step c w).
Proof.
  unfold stopped. intros (Hc & Hl & Ht).
  destruct c as [|h outcome|env| |sensor|e i]; simpl.
  - rewrite fire_started_run, Hl. split; [done | apply grows_refl].
  - destruct (fire_timer_run h outcome w) as (t & -> & _ & Hnil).
    rewrite Hnil by (by rewrite Ht, lookup_empty).
    rewrite add_trace_nil. split; [done | apply grows_refl].
  - destruct (refresh_frame env w) as (_ & _ & -> & -> & -> & _ & Hg).
    split; [done|]. eapply grows_weaken; [|exact Hg]. by intros [].
  - rewrite async_shutdown_run, Hc. split; [done | apply grows_refl].
  - rewrite reset_sensor_run. destruct (data w); simpl; (split; [done | solve_grows]).
  - rewrite entity_state_polling_run. simpl. split; [done | solve_grows].
Qed.

Lemma run_stopped (calls : list call) (w : world) :
  stopped w -> grows no_execute w (run calls w).
Proof.
  revert w. induction calls as [|c calls IH]; intros w Hs; [apply grows_refl|].
  destruct (step_stopped c w Hs) as [Hs' Hg].
  eapply grows_trans; [exact Hg|]. by apply IH.
Qed.

(** C5, what the code does: arming enters the ten-minute timer with the
    host and keeps its handle, and makes no other call: the coroutine object
    that [self._send_wakeup_packet()] builds is never awaited, so no wake-up
    request leaves at arm time. The listener fires once; the timer, when it
    comes due, does send. *)
Theorem start_wakeup_interval_sends_nothing (host : string) (w : world) :
  trace (snd (_start_wakeup_interval w))
  = trace w ++ [EvTrackTimeInterval (next_handle w) wakeup_timer]
  /\ _cancel_wakeup_interval (snd (_start_wakeup_interval w)) = Some (next_handle w)
  /\ timer_interval wakeup_timer = 10 * 60
  /\ trace (run [HomeassistantStarted] (fresh_coordinator host))
     = [EvTrackTimeInterval 0 {| timer_interval := 600;
                                 timer_name := "goodwe_inverter_send_wakeup_packet";
                                 timer_action := send_wakeup_packet |}]
  /\ run [HomeassistantStarted; HomeassistantStarted] (fresh_coordinator host)
     = run [HomeassistantStarted] (fresh_coordinator host)
  /\ forall outcome,
       exists logged,
         trace (run [HomeassistantStarted; TimerDue 0 outcome] (fresh_coordinator host))
         = [EvTrackTimeInterval 0 wakeup_timer;
            EvDebug "Sending wakeup packet to inverter on port 48899" [];
            EvExecute wakeup_request
              {| host := host; port := 48899; comm_addr := 1; timeout := 1 |}]
           ++ logged
         /\ Forall no_execute logged.
Proof.
  repeat split.
  intros [[raw|]|[]]; eexists; (split; [reflexivity | by repeat constructor]).
Qed.



(** C7, what the code does: in every state a coordinator reaches, shutting
    down while a timer handle is kept cancels that timer with the host and
    drops the handle; from there on no call makes a wake-up request. Shutting
    down with no handle kept changes nothing. In both cases the method ends by
    returning the coroutine object of the base class's shutdown as its value,
    not awaited: the body of the base shutdown is not run by the method. *)
Theorem shutdown_cancels_wakeup_timer (host : string) (before : list call) :
  (forall h,
     _cancel_wakeup_interval (run before (fresh_coordinator host)) = Some h ->
     async_shutdown (run before (fresh_coordinator host))
     = (Ok super_async_shutdown,
        set_cancel_wakeup_interval None
          (emit (EvCancel h)
             (set_timers (delete h (timers (run before (fresh_coordinator host))))
                (next_handle (run before (fresh_coordinator host)))
                (run before (fresh_coordinator host)))))
     /\ timers (run before (fresh_coordinator host)) !! h = Some wakeup_timer
     /\ timers (snd (async_shutdown (run before (fresh_coordinator host)))) = ∅
     /\ forall after,
          grows no_execute
            (snd (async_shutdown (run before (fresh_coordinator host))))
            (run after (snd (async_shutdown (run before (fresh_coordinator host))))))
  /\ (_cancel_wakeup_interval (run before (fresh_coordinator host)) = None ->
      async_shutdown (run before (fresh_coordinator host))
      = (Ok super_async_shutdown, run before (fresh_coordinator host))).
Proof.
  pose proof (run_wakeup_inv before host) as Hinv.
  set (w := run before (fresh_coordinator host)) in *.
  unfold wakeup_inv in Hinv. split.
  - intros h Hc. rewrite Hc in Hinv. destruct Hinv as [Hl Ht].
    rewrite async_shutdown_run, Hc. simpl.
    split; [done|]. split; [by rewrite Ht, lookup_singleton_eq|].
    split; [rewrite Ht; apply delete_singleton_eq|].
    intros after. apply run_stopped. unfold stopped. simpl.
    split; [done|]. split; [done|]. rewrite Ht. apply delete_singleton_eq.
  - intros Hc. by rewrite async_shutdown_run, Hc.
Qed.

Lemma shutdown_cancels_wakeup_timer_witness :
  timers (snd (async_shutdown
                 (run [HomeassistantStarted; TimerDue 0 (Ok None)]
                      (fresh_coordinator "192.168.1.14")))) = ∅
  /\ grows no_execute
       (snd (async_shutdown
               (run [HomeassistantStarted; TimerDue 0 (Ok None)]
                    (fresh_coordinator "192.168.1.14"))))
       (run [TimerDue 0 (Ok None); Refresh (cycle_reads ∅); HomeassistantStarted]
            (snd (async_shutdown
                    (run [HomeassistantStarted; TimerDue 0 (Ok None)]
                         (fresh_coordinator "192.168.1.14"))))).
Proof.
  destruct (shutdown_cancels_wakeup_timer "192.168.1.14"
              [HomeassistantStarted; TimerDue 0 (Ok None)]) as [H _].
  destruct (H 0%nat eq_refl) as (_ & _ & Ht & Hafter).
  split; [exact Ht | apply Hafter].
Defined.

(** ** A successful cycle, and the order of a cycle *)

Lemma refresh_store_wf (env : cycle) (w : world) :
  store_wf w -> store_wf (snd (refresh env w)).
Proof.
  unfold store_wf. intros [Hl Hd].
  destruct (update_polled_entities_run env w) as (t & E & _).
  exec_cycle. rewrite E.
  destruct (fst (_update_polled_entities env w)) as [[]|ex]; simpl; [|done].
  cycle_cases env w;
    (split; [try lia | intros ? ?; simplify_eq; try lia]);
    try (specialize (Hd _ eq_refl); lia).
Qed.

Lemma step_store_wf (c : call) (w : world) : store_wf w -> store_wf (step c w).
Proof.
  intros Hwf. destruct c as [|h outcome|env| |sensor|e i]; simpl.
  - rewrite fire_started_run. by destruct (started_listener w).
  - by destruct (fire_timer_run h outcome w) as (t & -> & _).
  - by apply refresh_store_wf.
  - rewrite async_shutdown_run. simpl. by destruct (_cancel_wakeup_interval w).
  - rewrite reset_sensor_run. unfold store_wf in *.
    destruct (data w) eqn:E; simpl; by rewrite ?E.
  - by rewrite entity_state_polling_run.
Qed.

(** In every state a coordinator reaches, [self._last_data] and [self.data]
    point into the store. *)
Lemma run_store_wf (calls : list call) (host : string) :
  store_wf (run calls (fresh_coordinator host)).
Proof.
  assert (H : forall w, store_wf w -> store_wf (run calls w)).
  { induction calls as [|c calls IH]; intros w Hwf; [done|].
    simpl. by apply IH, step_store_wf. }
  apply H. unfold store_wf. simpl. split; [lia | done].
Qed.

(** X1: a cycle whose telemetry read succeeds returns the mapping that was read,
    as a dict of its own; that dict is the current snapshot from then on, and
    the last-known snapshot is the current snapshot from before the cycle (the
    empty mapping when none was set). *)
Theorem refresh_success_rotates
    (host : string) (before : list call) (env : cycle) (d : dict) :
  fst (_update_polled_entities env (run before (fresh_coordinator host))) = Ok tt ->
  read_runtime_data env = Ok d ->
  exists r,
    fst (refresh env (run before (fresh_coordinator host))) = Ok r
    /\ data (snd (refresh env (run before (fresh_coordinator host)))) = Some r
    /\ current_snapshot (snd (refresh env (run before (fresh_coordinator host)))) = d
    /\ last_known_snapshot (snd (refresh env (run before (fresh_coordinator host))))
       = current_snapshot (run before (fresh_coordinator host)).
Proof.
  intros Hpoll Hread.
  destruct (run_store_wf before host) as [Hl Hd].
  set (w := run before (fresh_coordinator host)) in *.
  destruct (update_polled_entities_run env w) as (t & E & _).
  rewrite Hpoll in E.
  unfold current_snapshot, last_known_snapshot. exec_cycle. rewrite E, Hread. simpl.
  destruct (data w) as [r0|] eqn:Hr; simpl.
  - destruct (dict_truthy (heap w r0)) eqn:Ht; simpl.
    + eexists. repeat split; [by rewrite fn_lookup_insert|].
      specialize (Hd _ eq_refl). rewrite fn_lookup_insert_ne by lia. done.
    + apply dict_truthy_false in Ht. eexists. repeat split; [by rewrite fn_lookup_insert|].
      rewrite fn_lookup_insert_ne by lia. by rewrite fn_lookup_insert.
  - eexists. repeat split; [by rewrite fn_lookup_insert|].
    rewrite fn_lookup_insert_ne by lia. by rewrite fn_lookup_insert.
Qed.

Lemma refresh_success_rotates_witness :
  current_snapshot
    (snd (refresh (cycle_reads {[ "ppv" := VInt 480 ]})
            (run [Refresh (cycle_reads {[ "ppv" := VInt 500 ]})]
                 (fresh_coordinator "192.168.1.14"))))
  = {[ "ppv" := VInt 480 ]}
  /\ last_known_snapshot
       (snd (refresh (cycle_reads {[ "ppv" := VInt 480 ]})
               (run [Refresh (cycle_reads {[ "ppv" := VInt 500 ]})]
                    (fresh_coordinator "192.168.1.14"))))
     = {[ "ppv" := VInt 500 ]}.
Proof.
  destruct (refresh_success_rotates "192.168.1.14"
              [Refresh (cycle_reads {[ "ppv" := VInt 500 ]})]
              (cycle_reads {[ "ppv" := VInt 480 ]}) {[ "ppv" := VInt 480 ]}
              eq_refl eq_refl) as (r & _ & _ & Hc & Hl).
  split; [exact Hc|]. rewrite Hl. reflexivity.
Defined.

(** X2: within one cycle the secondary refreshes come first: the calls of a cycle
    are those of the secondary phase, none of them the telemetry read,
    followed by calls none of which is an entity update. *)
Theorem secondary_refreshes_come_first (env : cycle) (w : world) :
  exists t1 t2,
    trace (snd (refresh env w)) = trace w ++ t1 ++ t2
    /\ Forall (polled_event (_polled_entities w)) t1
    /\ Forall (fun ev => forall e, ev <> EvAsyncUpdate e) t2.
Proof.
  destruct (update_polled_entities_run env w) as (t & E & Ht).
  exists t. exec_cycle. rewrite E.
  destruct (fst (_update_polled_entities env w)) as [[]|ex]; simpl.
  2: { exists []. by rewrite app_nil_r. }
  cycle_cases env w; rewrite <- ?app_assoc;
    eexists; (split; [reflexivity|]); (split; [done|]); by repeat constructor.
Qed.

(** X3: in every state a coordinator reaches from its construction the
    registry holds each entity at most once, [self._last_data] and [self.data]
    point into the store, and the keep-alive fields agree: a kept handle is the
    one timer in the host's table and the one-time listener has fired, and
    with no handle kept the table is empty. *)
Theorem reachable_states_are_well_formed (host : string) (calls : list call) :
  NoDup (_polled_entities (run calls (fresh_coordinator host))).*1
  /\ store_wf (run calls (fresh_coordinator host))
  /\ wakeup_inv (run calls (fresh_coordinator host)).
Proof.
  split; [apply run_registry_NoDup|].
  split; [apply run_store_wf | apply run_wakeup_inv].
Qed.

(** ** Errors that are no device errors *)

(** X4: an exception other than [InverterError] raised by the update of a
    polled entity ends the cycle on the spot: the host sees that exception as
    it is, no telemetry read is made, no entity after it is updated, and
    nothing but the trace has changed, so both snapshots are as before. *)
Theorem polled_foreign_error_aborts_cycle
    (env : cycle) (w : world) (before after : registry)
    (entity : entity) (interval : interval) (ex : exn) :
  _polled_entities w = before ++ (entity, interval) :: after ->
  fst (for_polled_entities env before w) = Ok tt ->
  interval_truthy interval = true ->
  async_update env entity = Raise ex ->
  isinstance_InverterError ex = false ->
  exists t,
    refresh env w = (Raise ex, add_trace (t ++ [EvAsyncUpdate entity]) w)
    /\ Forall (polled_event before) t.
Proof.
  intros Hreg Hbefore Hi Hu Hx.
  destruct (for_polled_entities_frame env before w) as (t & Ht & HP).
  exists t. split; [|done].
  unfold refresh, _async_update_data, _update_polled_entities. run_py.
  rewrite Hreg, for_polled_entities_app.
  destruct (for_polled_entities env before w) as [res w1]. simpl in *. subst res w1.
  cbn [for_polled_entities]. unfold bind at 1.
  rewrite Hi. unfold try_except, await_async_update. rewrite Hu, Hx. simpl.
  by rewrite emit_add_trace, add_trace_app.
Qed.

Lemma polled_foreign_error_aborts_cycle_witness :
  exists t,
    refresh {| async_update := fun _ => Raise (OtherException "KeyError");
               read_runtime_data := Ok {[ "ppv" := VInt 500 ]} |}
      (run [EntityStatePolling entity_a (Some 30);
            EntityStatePolling entity_b (Some 30)]
           (fresh_coordinator "192.168.1.14"))
    = (Raise (OtherException "KeyError"),
       add_trace (t ++ [EvAsyncUpdate entity_a])
         (run [EntityStatePolling entity_a (Some 30);
               EntityStatePolling entity_b (Some 30)]
              (fresh_coordinator "192.168.1.14")))
    /\ Forall (polled_event []) t.
Proof.
  apply (polled_foreign_error_aborts_cycle
           {| async_update := fun _ => Raise (OtherException "KeyError");
              read_runtime_data := Ok {[ "ppv" := VInt 500 ]} |}
           (run [EntityStatePolling entity_a (Some 30);
                 EntityStatePolling entity_b (Some 30)]
                (fresh_coordinator "192.168.1.14"))
           [] [(entity_b, Some 30)] entity_a (Some 30) (OtherException "KeyError"));
    reflexivity.
Defined.

(** X5: an exception other than [InverterError] raised by the telemetry read
    reaches the host as it is, not wrapped in [UpdateFailed] and with no log
    record; by then the rotation has been done, so the last-known snapshot is
    the current one, which stays as it was. *)
Theorem foreign_read_error_propagates (env : cycle) (w : world) (ex : exn) :
  fst (_update_polled_entities env w) = Ok tt ->
  read_runtime_data env = Raise ex ->
  isinstance_InverterError ex = false ->
  refresh env w
  = (Raise ex,
     emit EvReadRuntimeData
       (snd (rotate_last_data (snd (_update_polled_entities env w)))))
  /\ data (snd (refresh env w)) = data w
  /\ current_snapshot (snd (refresh env w)) = current_snapshot w
  /\ last_known_snapshot (snd (refresh env w)) = current_snapshot w.
Proof.
  intros Hpoll Hread Hx.
  destruct (update_polled_entities_run env w) as (t & E & _).
  rewrite Hpoll in E.
  unfold current_snapshot, last_known_snapshot. exec_cycle.
  rewrite E, Hread. simpl.
  destruct ex; try done;
    (destruct (data w) as [r0|] eqn:Hd; simpl;
     [ destruct (dict_truthy (heap w r0)) eqn:Ht; simpl; rewrite ?Hd;
       [ by repeat split
       | apply dict_truthy_false in Ht; repeat split; try done;
         [ unfold insert, fn_insert; by case_decide; simplify_eq
         | by rewrite fn_lookup_insert ] ]
     | rewrite ?Hd; repeat split; by rewrite fn_lookup_insert ]).
Qed.

Lemma foreign_read_error_propagates_witness :
  fst (refresh (cycle_read_raises CancelledError)
         (run [Refresh (cycle_reads {[ "ppv" := VInt 500 ]})]
              (fresh_coordinator "192.168.1.14"))) = Raise CancelledError
  /\ last_known_snapshot
       (snd (refresh (cycle_read_raises CancelledError)
               (run [Refresh (cycle_reads {[ "ppv" := VInt 500 ]})]
                    (fresh_coordinator "192.168.1.14"))))
     = {[ "ppv" := VInt 500 ]}.
Proof.
  destruct (foreign_read_error_propagates (cycle_read_raises CancelledError)
              (run [Refresh (cycle_reads {[ "ppv" := VInt 500 ]})]
                   (fresh_coordinator "192.168.1.14"))
              CancelledError) as (Hr & _ & _ & Hl).
  - reflexivity.
  - reflexivity.
  - reflexivity.
  - split; [by rewrite Hr|]. rewrite Hl. vm_compute. reflexivity.
Defined.

(** ** One update per registered entity *)

Lemma updates_of_app (t1 t2 : list event) :
  updates_of (t1 ++ t2) = updates_of t1 ++ updates_of t2.
Proof.
  induction t1 as [|[] t1 IH]; simpl; try done. by rewrite IH.
Qed.

Lemma registry_setitem_truthy (e : entity) (i : interval) (d : registry) :
  interval_truthy i = true -> registry_truthy d -> registry_truthy (registry_setitem e i d).
Proof.
  unfold registry_truthy. intros Hi. induction d as [|[e' i'] d IH]; simpl; intros Hd.
  - by repeat constructor.
  - inversion Hd; subst. destruct (decide (e = e')); constructor; auto.
Qed.

Lemma registry_pop_truthy (e : entity) (d : registry) :
  registry_truthy d -> registry_truthy (registry_pop e d).
Proof.
  unfold registry_truthy. induction d as [|[e' i'] d IH]; simpl; intros Hd; [done|].
  inversion Hd; subst. destruct (decide (e = e')); [done|]. constructor; auto.
Qed.

Lemma step_registry_truthy (c : call) (w : world) :
  registry_truthy (_polled_entities w) -> registry_truthy (_polled_entities (step c w)).
Proof.
  intros Hd. destruct c as [|h outcome|env| |sensor|e i]; simpl.
  - rewrite fire_started_run. by destruct (started_listener w).
  - by destruct (fire_timer_run h outcome w) as (t & -> & _).
  - by destruct (refresh_frame env w) as (-> & _).
  - rewrite async_shutdown_run. simpl. by destruct (_cancel_wakeup_interval w).
  - rewrite reset_sensor_run. by destruct (data w).
  - rewrite entity_state_polling_run. simpl. destruct (interval_truthy i) eqn:Hi.
    + by apply registry_setitem_truthy.
    + by apply registry_pop_truthy.
Qed.

Lemma run_registry_truthy (calls : list call) (host : string) :
  registry_truthy (_polled_entities (run calls (fresh_coordinator host))).
Proof.
  assert (H : forall w, registry_truthy (_polled_entities w) ->
                        registry_truthy (_polled_entities (run calls w))).
  { induction calls as [|c calls IH]; intros w Hd; [done|].
    simpl. by apply IH, step_registry_truthy. }
  apply H. constructor.
Qed.

Lemma for_polled_entities_all (env : cycle) (items : registry) (w : world) :
  registry_truthy items ->
  (forall e ex, async_update env e = Raise ex -> isinstance_InverterError ex = true) ->
  exists t, for_polled_entities env items w = (Ok tt, add_trace t w)
            /\ updates_of t = items.*1.
Proof.
  unfold registry_truthy. intros Hd Henv. revert w.
  induction items as [|[e i] items IH]; intros w.
  - exists []. by rewrite add_trace_nil.
  - inversion Hd as [|? ? Hi Hrest]; subst. simpl in Hi.
    cbn [for_polled_entities]. unfold bind at 1.
    rewrite Hi. unfold try_except, await_async_update.
    destruct (async_update env e) as [[]|ex] eqn:Hu.
    + destruct (IH Hrest (emit (EvAsyncUpdate e) w)) as (t & -> & Ht).
      exists (EvAsyncUpdate e :: t). split.
      * by rewrite emit_add_trace, add_trace_app.
      * simpl. by rewrite Ht.
    + rewrite (Henv _ _ Hu). run_py.
      destruct (IH Hrest (emit (EvDebug "Failed to update entity %s" [ArgStr (name e)])
                            (emit (EvAsyncUpdate e) w))) as (t & -> & Ht).
      exists (EvAsyncUpdate e
                :: EvDebug "Failed to update entity %s" [ArgStr (name e)] :: t).
      split.
      * by rewrite !emit_add_trace, !add_trace_app.
      * simpl. by rewrite Ht.
Qed.

(** X6: in every state a coordinator reaches, a secondary phase in which no
    update raises anything but an [InverterError] returns normally and has
    called [async_update] of every registered entity exactly once, in the
    order of the registry: no entry is ever skipped, since the registry never
    holds a zero or absent interval. *)
Theorem every_registered_entity_is_polled
    (host : string) (calls : list call) (env : cycle) :
  (forall e ex, async_update env e = Raise ex -> isinstance_InverterError ex = true) ->
  exists t,
    _update_polled_entities env (run calls (fresh_coordinator host))
    = (Ok tt, add_trace t (run calls (fresh_coordinator host)))
    /\ updates_of t = (_polled_entities (run calls (fresh_coordinator host))).*1
    /\ NoDup (updates_of t)
    /\ registry_truthy (_polled_entities (run calls (fresh_coordinator host))).
Proof.
  intros Henv.
  pose proof (run_registry_truthy calls host) as Htr.
  destruct (for_polled_entities_all env _ (run calls (fresh_coordinator host)) Htr Henv)
    as (t & E & Ht).
  exists t. split; [|split; [done|split; [|done]]].
  - unfold _update_polled_entities. by run_py.
  - rewrite Ht. apply run_registry_NoDup.
Qed.

Lemma every_registered_entity_is_polled_witness :
  exists t,
    _update_polled_entities (cycle_entity_a_fails ∅)
      (run [EntityStatePolling entity_b (Some 60);
            EntityStatePolling entity_a (Some 30);
            EntityStatePolling entity_b (Some 30)]
           (fresh_coordinator "192.168.1.14"))
    = (Ok tt,
       add_trace t
         (run [EntityStatePolling entity_b (Some 60);
               EntityStatePolling entity_a (Some 30);
               EntityStatePolling entity_b (Some 30)]
              (fresh_coordinator "192.168.1.14")))
    /\ updates_of t = [entity_b; entity_a].
Proof.
  destruct (every_registered_entity_is_polled "192.168.1.14"
              [EntityStatePolling entity_b (Some 60);
               EntityStatePolling entity_a (Some 30);
               EntityStatePolling entity_b (Some 30)]
              (cycle_entity_a_fails ∅)) as (t & E & Ht & _).
  - intros e ex. simpl. destruct (decide (e = entity_a)); [|discriminate].
    intros [= <-]. reflexivity.
  - exists t. split; [exact E|]. rewrite Ht. reflexivity.
Defined.

(** ** Lookups after a reset and after a cycle *)

(** X7: [reset_sensor] touches one sensor id: every other id keeps its value
    in the current and in the last-known snapshot, whether [self.data] is set
    or not and whether the two snapshots are one dict object or two; the
    registry and the trace are left alone. *)
Theorem reset_sensor_leaves_other_ids (w : world) (sensor other : string) :
  other <> sensor ->
  current_snapshot (snd (reset_sensor sensor w)) !! other = current_snapshot w !! other
  /\ last_known_snapshot (snd (reset_sensor sensor w)) !! other
     = last_known_snapshot w !! other
  /\ _polled_entities (snd (reset_sensor sensor w)) = _polled_entities w
  /\ trace (snd (reset_sensor sensor w)) = trace w.
Proof.
  intros Hne. unfold current_snapshot, last_known_snapshot.
  rewrite reset_sensor_run. destruct (data w) as [r|] eqn:Hd; simpl; rewrite ?Hd.
  - repeat split.
    + rewrite fn_lookup_insert, lookup_insert_ne by done.
      destruct (decide (_last_data w = r)) as [<-|Hl].
      * by rewrite fn_lookup_insert, lookup_insert_ne.
      * by rewrite fn_lookup_insert_ne.
    + destruct (decide (r = _last_data w)) as [->|Hl].
      * by rewrite !fn_lookup_insert, !lookup_insert_ne.
      * rewrite fn_lookup_insert_ne by done.
        by rewrite fn_lookup_insert, lookup_insert_ne.
  - repeat split. by rewrite fn_lookup_insert, lookup_insert_ne.
Qed.

Lemma reset_sensor_leaves_other_ids_witness :
  current_snapshot
    (snd (reset_sensor "e_day"
            (run [Refresh (cycle_reads {[ "e_day" := VInt 12; "e_total" := VInt 1234 ]});
                  Refresh (cycle_read_raises (RequestFailedException 1))]
                 (fresh_coordinator "192.168.1.14")))) !! "e_total"
  = Some (VInt 1234).
Proof.
  destruct (reset_sensor_leaves_other_ids
              (run [Refresh (cycle_reads {[ "e_day" := VInt 12; "e_total" := VInt 1234 ]});
                    Refresh (cycle_read_raises (RequestFailedException 1))]
                   (fresh_coordinator "192.168.1.14"))
              "e_day" "e_total") as (H & _).
  - discriminate.
  - rewrite H. vm_compute. reflexivity.
Defined.

(** After a cycle that reached the read and whose read raised, both snapshots
    hold the mapping that was current before the cycle. *)
Lemma refresh_failed_read_snapshots (env : cycle) (w : world) (ex : exn) :
  fst (_update_polled_entities env w) = Ok tt ->
  read_runtime_data env = Raise ex ->
  current_snapshot (snd (refresh env w)) = current_snapshot w
  /\ last_known_snapshot (snd (refresh env w)) = current_snapshot w.
Proof.
  intros Hpoll Hread.
  destruct (update_polled_entities_run env w) as (t & E & _).
  rewrite Hpoll in E.
  unfold current_snapshot, last_known_snapshot. exec_cycle.
  rewrite E, Hread. simpl.
  destruct (data w) as [r0|] eqn:Hd; simpl.
  - destruct (dict_truthy (heap w r0)) eqn:Ht; simpl.
    + destruct ex; simpl; rewrite ?Hd; try done.
      destruct (_ <? 3); simpl; by rewrite ?Hd.
    + apply dict_truthy_false in Ht.
      destruct ex; simpl; rewrite ?Hd; rewrite ?fn_lookup_insert;
        try (split; [unfold insert, fn_insert; by case_decide; simplify_eq | done]).
      destruct (_ <? 3); simpl; rewrite ?Hd, ?fn_lookup_insert; [done|].
      split; [unfold insert, fn_insert; by case_decide; simplify_eq | done].
  - destruct ex; simpl; rewrite ?Hd, ?fn_lookup_insert; try done.
    destruct (_ <? 3); simpl; by rewrite ?Hd, ?fn_lookup_insert.
Qed.

(** X8: after a cycle that reached the telemetry read and whose read raised,
    whatever the error, the last-known snapshot holds the same mapping as the
    current one, so the fall-back has nothing more to offer: when [self.data]
    is set after the cycle, [sensor_value] and [total_sensor_value] both
    answer with the current value of the id ([None] when it is missing), a
    zero included; when it is still unset, which takes a cycle that started
    unset and did not return, both raise [AttributeError]. *)
Theorem failed_read_leaves_no_fallback
    (env : cycle) (w : world) (ex : exn) (sensor : string) :
  fst (_update_polled_entities env w) = Ok tt ->
  read_runtime_data env = Raise ex ->
  last_known_snapshot (snd (refresh env w)) = current_snapshot (snd (refresh env w))
  /\ (forall r, data (snd (refresh env w)) = Some r ->
      sensor_value sensor (snd (refresh env w))
      = (Ok (dict_get (current_snapshot w) sensor), snd (refresh env w))
      /\ total_sensor_value sensor (snd (refresh env w))
         = (Ok (dict_get (current_snapshot w) sensor), snd (refresh env w)))
  /\ (data (snd (refresh env w)) = None ->
      data w = None
      /\ (exists ex', fst (refresh env w) = Raise ex')
      /\ sensor_value sensor (snd (refresh env w))
         = (Raise AttributeError, snd (refresh env w))
      /\ total_sensor_value sensor (snd (refresh env w))
         = (Raise AttributeError, snd (refresh env w))).
Proof.
  intros Hpoll Hread.
  destruct (refresh_failed_read_snapshots env w ex Hpoll Hread) as [Hc Hl].
  split; [by rewrite Hc, Hl|]. split.
  - intros r Hd.
    assert (Hr : heap (snd (refresh env w)) r = current_snapshot w).
    { rewrite <- Hc. unfold current_snapshot. by rewrite Hd. }
    split.
    + rewrite (sensor_value_set _ _ _ Hd), Hr, Hl.
      unfold spec_sensorValue. rewrite dict_get_lookup.
      by destruct (current_snapshot w !! sensor) as [[]|].
    + rewrite (total_sensor_value_set _ _ _ Hd), Hr, Hl.
      unfold spec_totalSensorValue. rewrite dict_get_lookup.
      destruct (current_snapshot w !! sensor) as [v|]; [|done]. by destruct (truthy v).
  - intros Hd. pose proof (refresh_sets_data env w) as Hs.
    destruct (fst (refresh env w)) as [r|ex']; [congruence|].
    split; [by rewrite <- Hs|]. split; [by eexists|]. split.
    + unfold sensor_value, bind. by rewrite (data_get_unset _ _ Hd).
    + unfold total_sensor_value, bind. by rewrite (data_get_unset _ _ Hd).
Qed.

Lemma failed_read_leaves_no_fallback_witness :
  fst (total_sensor_value "e_total"
         (run [Refresh (cycle_reads {[ "e_total" := VInt 1234 ]});
               Refresh (cycle_reads {[ "e_total" := VInt 0 ]})]
              (fresh_coordinator "192.168.1.14"))) = Ok (VInt 1234)
  /\ fst (total_sensor_value "e_total"
            (snd (refresh (cycle_read_raises (RequestFailedException 1))
                    (run [Refresh (cycle_reads {[ "e_total" := VInt 1234 ]});
                          Refresh (cycle_reads {[ "e_total" := VInt 0 ]})]
                         (fresh_coordinator "192.168.1.14"))))) = Ok (VInt 0)
  /\ fst (sensor_value "e_total"
            (snd (refresh (cycle_read_raises (RequestFailedException 3))
                    (fresh_coordinator "192.168.1.14")))) = Raise AttributeError.
Proof.
  split; [reflexivity|].
  destruct (failed_read_leaves_no_fallback
              (cycle_read_raises (RequestFailedException 1))
              (run [Refresh (cycle_reads {[ "e_total" := VInt 1234 ]});
                    Refresh (cycle_reads {[ "e_total" := VInt 0 ]})]
                   (fresh_coordinator "192.168.1.14"))
              (RequestFailedException 1) "e_total") as (_ & H & _);
    [reflexivity | reflexivity |].
  destruct (failed_read_leaves_no_fallback
              (cycle_read_raises (RequestFailedException 3))
              (fresh_coordinator "192.168.1.14")
              (RequestFailedException 3) "e_total") as (_ & _ & H');
    [reflexivity | reflexivity |].
  split.
  - destruct (H 3%nat) as [_ Ht]; [vm_compute; reflexivity|].
    rewrite Ht. vm_compute. reflexivity.
  - destruct H' as (_ & _ & Hs & _); [reflexivity|]. by rewrite Hs.
Defined.




(** ** More on the keep-alive sender *)

(** X10: of the exceptions a wake-up request may raise only the cancellation
    is caught: any other one leaves [_send_wakeup_packet] as it is, after the
    first log record and the request and with no further record, and leaves
    the timer callback that awaited it; the timer stays registered. *)
Theorem send_wakeup_packet_propagates_other_errors
    (ex : exn) (w : world) (h : handle) :
  ex <> CancelledError ->
  _send_wakeup_packet (Raise ex) w
  = (Raise ex,
     add_trace
       [EvDebug "Sending wakeup packet to inverter on port 48899" [];
        EvExecute wakeup_request
          {| host := _host w; port := 48899; comm_addr := 1; timeout := 1 |}] w)
  /\ (timers w !! h = Some wakeup_timer ->
      fst (fire_timer h (Raise ex) w) = Raise ex
      /\ timers (snd (fire_timer h (Raise ex) w)) = timers w
      /\ _cancel_wakeup_interval (snd (fire_timer h (Raise ex) w))
         = _cancel_wakeup_interval w).
Proof.
  intros Hex.
  assert (Hs : _send_wakeup_packet (Raise ex) w
    = (Raise ex,
       add_trace
         [EvDebug "Sending wakeup packet to inverter on port 48899" [];
          EvExecute wakeup_request
            {| host := _host w; port := 48899; comm_addr := 1; timeout := 1 |}] w)).
  { unfold _send_wakeup_packet, try_except, await_execute. run_py.
    destruct ex; try done; by rewrite !emit_add_trace, !add_trace_app. }
  split; [exact Hs|]. intros Ht. unfold fire_timer. run_py. rewrite Ht. simpl.
  by rewrite Hs.
Qed.

Lemma send_wakeup_packet_propagates_other_errors_witness :
  fst (fire_timer 0 (Raise (RequestFailedException 1))
         (run [HomeassistantStarted] (fresh_coordinator "192.168.1.14")))
  = Raise (RequestFailedException 1).
Proof.
  destruct (send_wakeup_packet_propagates_other_errors (RequestFailedException 1)
              (run [HomeassistantStarted] (fresh_coordinator "192.168.1.14")) 0%nat)
    as (_ & H).
  - discriminate.
  - destruct (H eq_refl) as (Hr & _). exact Hr.
Defined.

(** X11: a second [async_shutdown] changes nothing. A shutdown touches the
    timer table, the handle and the trace only: the snapshots, the registry
    and the one-time start listener stay, so a coordinator shut down before
    the host has started still arms its timer when the start signal comes. *)
Theorem async_shutdown_is_idempotent (w : world) :
  async_shutdown (snd (async_shutdown w))
  = (Ok super_async_shutdown, snd (async_shutdown w))
  /\ started_listener (snd (async_shutdown w)) = started_listener w
  /\ data (snd (async_shutdown w)) = data w
  /\ _last_data (snd (async_shutdown w)) = _last_data w
  /\ heap (snd (async_shutdown w)) = heap w
  /\ _polled_entities (snd (async_shutdown w)) = _polled_entities w
  /\ (started_listener w = true ->
      _cancel_wakeup_interval (snd (fire_started (snd (async_shutdown w))))
      = Some (next_handle w)
      /\ timers (snd (fire_started (snd (async_shutdown w)))) !! next_handle w
         = Some wakeup_timer).
Proof.
  assert (Harm : started_listener w = true ->
      _cancel_wakeup_interval (snd (fire_started (snd (async_shutdown w))))
      = Some (next_handle w)
      /\ timers (snd (fire_started (snd (async_shutdown w)))) !! next_handle w
         = Some wakeup_timer).
  { intros Hl. rewrite fire_started_run, async_shutdown_run. simpl.
    destruct (_cancel_wakeup_interval w) as [h|]; simpl; rewrite Hl; simpl;
      by rewrite lookup_insert_eq. }
  rewrite !async_shutdown_run. simpl.
  destruct (_cancel_wakeup_interval w) as [h|] eqn:Hc; simpl; rewrite ?Hc;
    (split; [done|]); do 5 (split; [done|]); intros Hl;
    (rewrite async_shutdown_run, Hc in Harm); by apply Harm.
Qed.

(** ** The order of the registry *)

Lemma filter_ne_absent (e : entity) (l : list entity) :
  e ∉ l -> filter (fun x => x <> e) l = l.
Proof.
  induction l as [|x l IH]; [done|].
  rewrite not_elem_of_cons. intros [Hne Hnin].
  rewrite filter_cons_True by done. by rewrite IH.
Qed.

Lemma registry_setitem_keys_order (e : entity) (i : interval) (d : registry) :
  (registry_setitem e i d).*1 = if decide (e ∈ d.*1) then d.*1 else d.*1 ++ [e].
Proof.
  induction d as [|[e' i'] d IH]; cbn [registry_setitem fmap list_fmap fst].
  - destruct (decide (e ∈ [])) as [Hin|_]; [by apply elem_of_nil in Hin | done].
  - destruct (decide (e = e')) as [->|Hne]; cbn [fmap list_fmap fst].
    + destruct (decide (e' ∈ e' :: d.*1)) as [_|Hnin]; [done|].
      destruct Hnin. by left.
    + rewrite IH. destruct (decide (e ∈ d.*1)) as [Hin|Hnin];
        destruct (decide (e ∈ e' :: d.*1)) as [Hin'|Hnin']; try done.
      * destruct Hnin'. by right.
      * apply elem_of_cons in Hin' as [|]; done.
Qed.

Lemma registry_pop_keys_order (e : entity) (d : registry) :
  NoDup d.*1 -> (registry_pop e d).*1 = filter (fun x => x <> e) d.*1.
Proof.
  induction d as [|[e' i'] d IH]; [done|].
  cbn [registry_pop fmap list_fmap fst]. intros Hd.
  apply list.NoDup_cons in Hd as [Hnin Hnd].
  destruct (decide (e = e')) as [->|Hne]; cbn [fmap list_fmap fst].
  - rewrite filter_cons_False by (by intros H; apply H).
    by rewrite filter_ne_absent.
  - rewrite filter_cons_True by done. by rewrite IH.
Qed.

(** X12: the registry keeps the order of first registration, which is the
    order in which entities are updated: in every state a coordinator
    reaches, registering an entity that is already there leaves the order of
    the entities as it is, a new entity goes to the end, and removing one
    leaves the others in their order. *)
Theorem entity_state_polling_keeps_order
    (host : string) (calls : list call) (e : entity) (i : interval) :
  (_polled_entities
     (snd (entity_state_polling e i (run calls (fresh_coordinator host))))).*1
  = if interval_truthy i then
      if decide (e ∈ (_polled_entities (run calls (fresh_coordinator host))).*1)
      then (_polled_entities (run calls (fresh_coordinator host))).*1
      else (_polled_entities (run calls (fresh_coordinator host))).*1 ++ [e]
    else
      filter (fun x => x <> e) (_polled_entities (run calls (fresh_coordinator host))).*1.
Proof.
  rewrite entity_state_polling_run. simpl. destruct (interval_truthy i).
  - apply registry_setitem_keys_order.
  - apply registry_pop_keys_order, run_registry_NoDup.
Qed.

(** ** The keep-alive events of a whole run *)

Lemma count_app (f : event -> bool) (t1 t2 : list event) :
  count f (t1 ++ t2) = (count f t1 + count f t2)%nat.
Proof. unfold count. by rewrite List.filter_app, length_app. Qed.

Lemma count_none (f : event -> bool) (P : event -> Prop) (t : list event) :
  (forall ev, P ev -> f ev = false) -> Forall P t -> count f t = 0%nat.
Proof.
  intros HP Ht. unfold count. induction Ht as [|ev t Hev _ IH]; [done|].
  simpl. by rewrite (HP _ Hev).
Qed.

Lemma step_keepalive_trace_inv (c : call) (w : world) :
  keepalive_trace_inv w -> keepalive_trace_inv (step c w).
Proof.
  intros [Hinv Htr]. split; [by apply step_wakeup_inv|].
  unfold wakeup_inv in Hinv.
  destruct c as [|h outcome|env| |sensor|e i]; simpl.
  - rewrite fire_started_run. destruct (started_listener w) eqn:Hl; simpl; [|by rewrite Hl].
    destruct Htr as (_ & Ht & Hc & _). rewrite !count_app, Ht, Hc. by simpl.
  - destruct (fire_timer_run h outcome w) as (t & -> & Ht & Hnil). simpl.
    destruct (started_listener w) eqn:Hl.
    + destruct Htr as (Hc & Htr). rewrite Hc in Hinv.
      rewrite Hnil by (by rewrite Hinv, lookup_empty). by rewrite app_nil_r.
    + rewrite !count_app.
      rewrite (count_none is_track wakeup_event t), (count_none is_cancel wakeup_event t);
        try done; try (by intros []).
      by rewrite !Nat.add_0_r.
  - destruct (refresh_frame env w) as (_ & _ & -> & -> & _ & _ & (t & -> & Ht)).
    rewrite !count_app.
    assert (H1 : count is_track t = 0%nat)
      by (eapply count_none; [|exact Ht]; by intros []).
    assert (H2 : count is_cancel t = 0%nat)
      by (eapply count_none; [|exact Ht]; by intros []).
    assert (H3 : count is_execute t = 0%nat)
      by (eapply count_none; [|exact Ht]; by intros []).
    rewrite H1, H2, H3, !Nat.add_0_r. exact Htr.
  - rewrite async_shutdown_run. simpl.
    destruct (_cancel_wakeup_interval w) as [h|] eqn:Hc; simpl; [|by rewrite Hc].
    destruct Hinv as [Hl _]. rewrite Hl in *. destruct Htr as [Ht Hcn].
    rewrite !count_app, Ht, Hcn. by simpl.
  - rewrite reset_sensor_run. destruct (data w); exact Htr.
  - rewrite entity_state_polling_run. exact Htr.
Qed.

Lemma run_keepalive_trace_inv (calls : list call) (host : string) :
  keepalive_trace_inv (run calls (fresh_coordinator host)).
Proof.
  assert (H : forall w, keepalive_trace_inv w -> keepalive_trace_inv (run calls w)).
  { induction calls as [|c calls IH]; intros w Hinv; [done|].
    simpl. by apply IH, step_keepalive_trace_inv. }
  apply H. by repeat split.
Qed.

(** X13: over the whole life of a coordinator the timer is registered with
    the host at most once and cancelled at most as often as it was registered,
    and no wake-up request is made before the registration: refreshes, resets
    and registry calls make none, and a timer that is not in the host's table
    sends nothing. The one-time listener waits exactly as long as no timer
    has been registered. *)
Theorem timer_is_registered_at_most_once (host : string) (calls : list call) :
  (count is_track (trace (run calls (fresh_coordinator host))) <= 1)%nat
  /\ (count is_cancel (trace (run calls (fresh_coordinator host)))
      <= count is_track (trace (run calls (fresh_coordinator host))))%nat
  /\ (count is_track (trace (run calls (fresh_coordinator host))) = 0%nat ->
      count is_execute (trace (run calls (fresh_coordinator host))) = 0%nat)
  /\ (started_listener (run calls (fresh_coordinator host)) = true <->
      count is_track (trace (run calls (fresh_coordinator host))) = 0%nat).
Proof.
  destruct (run_keepalive_trace_inv calls host) as [_ Htr].
  destruct (started_listener (run calls (fresh_coordinator host))).
  - destruct Htr as (_ & -> & -> & ->). repeat split; try done; lia.
  - destruct Htr as (-> & ->). repeat split; try done; try lia.
    by destruct (_cancel_wakeup_interval _); lia.
Qed.
